(** * EventX frontend: the calendar widget and the authentication shell

    A shallow embedding of [src/Frontend/src/Calendar.jsx] and
    [src/Frontend/src/App.jsx].

    The two components are React function components.  Their state
    ([useState] cells) is a record, their event handlers are functions on
    that record, and the asynchronous handlers ([fetchEvents],
    [checkAuthStatus], [handleLogout]) are programs in a small monad with
    state, a console, a request trace and exceptions.

    The components lean on the JavaScript [Date] built-in, so the first
    module gives the ECMA-262 date algorithms the source calls. *)

From Stdlib Require Import ZArith Lia Bool List String Ascii.
From Stdlib Require Import DecimalString DecimalZ DecimalN.
Import ListNotations.

Local Open Scope Z_scope.

(** ** JavaScript numbers

    Every number the two components compute is an integer far below 2^53
    or [NaN]; a JavaScript number is therefore an optional integer. *)

Module JSNumber.

Definition Number : Type := option Z.
Definition NaN : Number := None.

Definition add (a b : Number) : Number :=
  match a, b with
  | Some x, Some y => Some (x + y)
  | _, _ => NaN
  end.

Definition sub (a b : Number) : Number :=
  match a, b with
  | Some x, Some y => Some (x - y)
  | _, _ => NaN
  end.

(** [a === b] on numbers: [NaN] is not equal to anything, itself
    included. *)
Definition strict_eq (a b : Number) : bool :=
  match a, b with
  | Some x, Some y => x =? y
  | _, _ => false
  end.

End JSNumber.

(** ** The [Date] built-in (ECMA-262, section "Date Objects")

    A [Date] object holds a time value in milliseconds, or [NaN] for an
    invalid date.  The components only build dates from local fields
    ([new Date(year, month, day)]) and only read local fields back
    ([getFullYear], [getMonth], [getDate], [getDay], [toDateString]), so a
    date is represented by its local time value: the host's conversion
    between local time and UTC is taken to preserve local fields, and the
    range check of [TimeClip] is made on the local value (it is off by
    the zone offset, less than a day; the first and the last day of a
    month are never that close to either end of the range). *)

Module JSDate.
Import JSNumber.

Definition msPerDay : Z := 86400000.

Definition Day (t : Z) : Z := t / msPerDay.

Definition DaysInYear (y : Z) : Z :=
  if y mod 400 =? 0 then 366
  else if y mod 100 =? 0 then 365
  else if y mod 4 =? 0 then 366
  else 365.

Definition DayFromYear (y : Z) : Z :=
  365 * (y - 1970) + (y - 1969) / 4 - (y - 1901) / 100 + (y - 1601) / 400.

Definition TimeFromYear (y : Z) : Z := msPerDay * DayFromYear y.

(** [YearFromTime t] is the largest [y] with [TimeFromYear y <= t].  The
    quotient by the mean Gregorian year is at most one year off, so the
    search looks at three candidates; [YearFromTime_spec] below proves
    that the result is the year ECMA-262 describes. *)
Definition YearFromTime (t : Z) : Z :=
  let d := Day t in
  let e := 1970 + (400 * d) / 146097 in
  if DayFromYear (e + 1) <=? d then e + 1
  else if DayFromYear e <=? d then e
  else e - 1.

Definition InLeapYear (t : Z) : Z :=
  if DaysInYear (YearFromTime t) =? 366 then 1 else 0.

Definition DayWithinYear (t : Z) : Z :=
  Day t - DayFromYear (YearFromTime t).

Definition MonthFromTime (t : Z) : Z :=
  let d := DayWithinYear t in
  let l := InLeapYear t in
  if d <? 31 then 0
  else if d <? 59 + l then 1
  else if d <? 90 + l then 2
  else if d <? 120 + l then 3
  else if d <? 151 + l then 4
  else if d <? 181 + l then 5
  else if d <? 212 + l then 6
  else if d <? 243 + l then 7
  else if d <? 273 + l then 8
  else if d <? 304 + l then 9
  else if d <? 334 + l then 10
  else 11.

Definition DateFromTime (t : Z) : Z :=
  let d := DayWithinYear t in
  let l := InLeapYear t in
  match MonthFromTime t with
  | 0 => d + 1
  | 1 => d - 30
  | 2 => d - 58 - l
  | 3 => d - 89 - l
  | 4 => d - 119 - l
  | 5 => d - 150 - l
  | 6 => d - 180 - l
  | 7 => d - 211 - l
  | 8 => d - 242 - l
  | 9 => d - 272 - l
  | 10 => d - 303 - l
  | _ => d - 333 - l
  end.

Definition WeekDay (t : Z) : Z := (Day t + 4) mod 7.

(** Days of year [y] that precede its month [mn] (0-based). *)
Definition DaysBeforeMonth (y mn : Z) : Z :=
  let l := if DaysInYear y =? 366 then 1 else 0 in
  match mn with
  | 0 => 0
  | 1 => 31
  | 2 => 59 + l
  | 3 => 90 + l
  | 4 => 120 + l
  | 5 => 151 + l
  | 6 => 181 + l
  | 7 => 212 + l
  | 8 => 243 + l
  | 9 => 273 + l
  | 10 => 304 + l
  | _ => 334 + l
  end.

(** [MakeDay year month date]: months outside 0..11 carry into the
    year, and [date] is an offset from the first of the month, so day 0
    is the last day of the month before.  ECMA-262 asks for the day
    number of a time value [t] whose year is [ym], whose month is [mn]
    and whose date is 1; [MakeDay_first] proves this is that day. *)
Definition MakeDay (year month date : Z) : Z :=
  let ym := year + month / 12 in
  let mn := month mod 12 in
  DayFromYear ym + DaysBeforeMonth ym mn + date - 1.

Definition MakeDate (day time : Z) : Z := day * msPerDay + time.

Definition TimeClip (t : Z) : Number :=
  if Z.abs t <=? 8640000000000000 then Some t else NaN.

(** The constructor reads a year from 0 to 99 as 1900 + year. *)
Definition MakeFullYear (y : Z) : Z :=
  if (0 <=? y) && (y <=? 99) then 1900 + y else y.

(** A [Date] object: its time value. *)
Definition Date : Type := Number.

(** [new Date(year, month, date)] *)
Definition new_Date3 (year month date : Number) : Date :=
  match year, month, date with
  | Some y, Some m, Some dt =>
      TimeClip (MakeDate (MakeDay (MakeFullYear y) m dt) 0)
  | _, _, _ => NaN
  end.

(** [new Date(year, month)]: the date defaults to 1. *)
Definition new_Date2 (year month : Number) : Date :=
  new_Date3 year month (Some 1).

Definition getFullYear (d : Date) : Number := option_map YearFromTime d.
Definition getMonth (d : Date) : Number := option_map MonthFromTime d.
Definition getDate (d : Date) : Number := option_map DateFromTime d.
Definition getDay (d : Date) : Number := option_map WeekDay d.

(** The years the constructor takes as they are. *)
Definition literal_year (y : Z) : Prop := y < 0 \/ 99 < y.

(** The months, as (year, month), whose first day is a valid [Date]:
    time values reach from 20 April -271821 to 13 September 275760. *)
Definition first_day_in_range (ym : Z * Z) : Prop :=
  -271821 * 12 + 4 <= 12 * fst ym + snd ym <= 275760 * 12 + 8.

(** The months all of whose days are valid. *)
Definition whole_month_in_range (ym : Z * Z) : Prop :=
  -271821 * 12 + 4 <= 12 * fst ym + snd ym <= 275760 * 12 + 7.

End JSDate.

(** ** Strings: number conversion, padding, truthiness, [toDateString] *)

Module JSString.
Import JSNumber JSDate.
Local Open Scope string_scope.

(** [String(n)] and the implicit conversion of [n + '-']. *)
Definition Number_toString (n : Number) : string :=
  match n with
  | Some z => NilZero.string_of_int (Z.to_int z)
  | None => "NaN"
  end.

Fixpoint repeat_char (c : ascii) (n : nat) : string :=
  match n with
  | O => ""
  | S k => String c (repeat_char c k)
  end.

(** [s.padStart(targetLength, c)] for a one-character filler. *)
Definition padStart (s : string) (targetLength : nat) (c : ascii) : string :=
  repeat_char c (targetLength - String.length s) ++ s.

(** ECMA-262 ToZeroPaddedDecimalString, for [n >= 0]. *)
Definition ToZeroPaddedDecimalString (n : Z) (minLength : nat) : string :=
  padStart (NilZero.string_of_uint (N.to_uint (Z.to_N n))) minLength "0".

(** A possibly absent string used as a condition: [undefined] and the
    empty string are falsy. *)
Definition truthy (v : option string) : bool :=
  match v with
  | Some s => negb (s =? "")
  | None => false
  end.

(** [v || fallback] *)
Definition or_else (v : option string) (fallback : string) : string :=
  if truthy v then match v with Some s => s | None => fallback end
  else fallback.

(** [v ?? fallback]: only an absent value is replaced. *)
Definition nullish (v : option string) (fallback : string) : string :=
  match v with
  | Some s => s
  | None => fallback
  end.

Definition weekdayName (w : Z) : string :=
  match w with
  | 0 => "Sun" | 1 => "Mon" | 2 => "Tue" | 3 => "Wed"
  | 4 => "Thu" | 5 => "Fri" | _ => "Sat"
  end%Z.

Definition monthName (m : Z) : string :=
  match m with
  | 0 => "Jan" | 1 => "Feb" | 2 => "Mar" | 3 => "Apr"
  | 4 => "May" | 5 => "Jun" | 6 => "Jul" | 7 => "Aug"
  | 8 => "Sep" | 9 => "Oct" | 10 => "Nov" | _ => "Dec"
  end%Z.

(** The year of a date string: a sign for a negative year, then at
    least four digits. *)
Definition yearString (yv : Z) : string :=
  (if (0 <=? yv)%Z then "" else "-") ++
  ToZeroPaddedDecimalString (Z.abs yv) 4.

(** ECMA-262 DateString: "Tue Mar 05 2024". *)
Definition DateString (tv : Z) : string :=
  weekdayName (WeekDay tv) ++ " " ++
  monthName (MonthFromTime tv) ++ " " ++
  ToZeroPaddedDecimalString (DateFromTime tv) 2 ++ " " ++
  yearString (YearFromTime tv).

Definition toDateString (d : Date) : string :=
  match d with
  | Some tv => DateString tv
  | None => "Invalid Date"
  end.

(** The number a string of decimal digits denotes, leading zeros
    allowed; used to read padded numbers back. *)
Definition decimal_value (s : string) : option N :=
  option_map N.of_uint (NilEmpty.uint_of_string s).

End JSString.

(** ** The civil calendar

    The reference the grid is checked against: the Gregorian leap-year
    rule, the month lengths, and the day of the week by Sakamoto's
    congruence.  Months are numbered from 0 as in the source, days of the
    week from 0 = Sunday. *)

Module Civil.

Definition is_leap_year (y : Z) : bool :=
  ((y mod 4 =? 0) && negb (y mod 100 =? 0)) || (y mod 400 =? 0).

Definition days_in_month (y m : Z) : Z :=
  match m with
  | 1 => if is_leap_year y then 29 else 28
  | 3 | 5 | 8 | 10 => 30
  | _ => 31
  end.

Definition sakamoto_offset (m : Z) : Z :=
  match m with
  | 0 => 0 | 1 => 3 | 2 => 2 | 3 => 5 | 4 => 0 | 5 => 3
  | 6 => 5 | 7 => 1 | 8 => 4 | 9 => 6 | 10 => 2 | _ => 4
  end.

Definition weekday (y m d : Z) : Z :=
  let y' := if m <? 2 then y - 1 else y in
  (y' + y' / 4 - y' / 100 + y' / 400 + sakamoto_offset m + d) mod 7.

(** The month after and the month before, as (year, month). *)
Definition next_month (ym : Z * Z) : Z * Z :=
  let (y, m) := ym in if m =? 11 then (y + 1, 0) else (y, m + 1).

Definition prev_month (ym : Z * Z) : Z * Z :=
  let (y, m) := ym in if m =? 0 then (y - 1, 11) else (y, m - 1).

End Civil.
(** ** The backend interface and the effects of a handler

    [api] is the axios instance of [./api]: a request either resolves to
    a response or rejects with an error.  Response bodies are typed by
    the endpoint that produces them. *)

Module Api.
Local Open Scope string_scope.

(** An event as the events endpoint returns it. *)
Record EventStart : Type := mkStart {
  date : option string;
  dateTime : option string
}.

Record CalendarEvent : Type := mkEvent {
  id : option string;
  summary : option string;
  start : option EventStart;
  location : option string
}.

Inductive Payload : Type :=
| StatusPayload (authenticated : option bool)
| ProfilePayload (email : option string)
| EventsPayload (events : list CalendarEvent).

Record Response : Type := mkResponse { data : option Payload }.

(** The rejection value of a failed request.  [response] is absent for
    a transport failure, [detail] for a body without that field. *)
Record ErrorData : Type := mkErrorData { detail : option string }.
Record ErrorResponse : Type := mkErrorResponse { error_data : option ErrorData }.
Record AxiosError : Type := mkError { response : option ErrorResponse }.

(** [error.response?.data?.detail] *)
Definition response_detail (error : AxiosError) : option string :=
  match response error with
  | Some r => match error_data r with
              | Some d => detail d
              | None => None
              end
  | None => None
  end.

Inductive Method : Type := GET | POST.

Record Request : Type := mkRequest {
  method : Method;
  url : string;
  withCredentials : bool
}.

Definition Backend : Type := Request -> Response + AxiosError.

Inductive ConsoleEntry : Type :=
| ConsoleLog (message : string) (value : option Payload)
| ConsoleError (message : string) (error : AxiosError).

End Api.

(** A handler runs against the component state [S], the console and the
    trace of requests sent so far.  It completes normally, by [return],
    or by throwing. *)

Module Eff.
Import Api.

Record World (S : Type) : Type := mkWorld {
  component : S;
  console : list ConsoleEntry;
  sent : list Request
}.
Arguments mkWorld {S}.
Arguments component {S}.
Arguments console {S}.
Arguments sent {S}.

Inductive Completion (A : Type) : Type :=
| Normal (a : A)
| Returned
| Thrown (error : AxiosError).
Arguments Normal {A}.
Arguments Returned {A}.
Arguments Thrown {A}.

Definition M (S A : Type) : Type := World S -> Completion A * World S.

Section Ops.
Context {S : Type}.

Definition ret {A} (a : A) : M S A := fun w => (Normal a, w).

Definition bind {A B} (m : M S A) (k : A -> M S B) : M S B :=
  fun w =>
    match m w with
    | (Normal a, w') => k a w'
    | (Returned, w') => (Returned, w')
    | (Thrown e, w') => (Thrown e, w')
    end.

(** [return;] *)
Definition return_ {A} : M S A := fun w => (Returned, w).

(** A state setter of [useState]. *)
Definition set (f : S -> S) : M S unit :=
  fun w => (Normal tt, mkWorld (f (component w)) (console w) (sent w)).

Definition console_log (message : string) (value : option Payload) : M S unit :=
  fun w => (Normal tt,
            mkWorld (component w) (console w ++ [ConsoleLog message value]) (sent w)).

Definition console_error (message : string) (error : AxiosError) : M S unit :=
  fun w => (Normal tt,
            mkWorld (component w) (console w ++ [ConsoleError message error]) (sent w)).

(** [await api.get(url, { withCredentials: true })] and
    [await api.post(url, {}, { withCredentials: true })] *)
Definition request (api : Backend) (r : Request) : M S Response :=
  fun w =>
    let w' := mkWorld (component w) (console w) (sent w ++ [r]) in
    match api r with
    | inl res => (Normal res, w')
    | inr err => (Thrown err, w')
    end.

Definition api_get (api : Backend) (u : string) : M S Response :=
  request api (mkRequest GET u true).

Definition api_post (api : Backend) (u : string) : M S Response :=
  request api (mkRequest POST u true).

(** [try { body } catch (e) { handler e }] *)
Definition try_catch (body : M S unit) (handler : AxiosError -> M S unit)
  : M S unit :=
  fun w =>
    match body w with
    | (Thrown e, w') => handler e w'
    | r => r
    end.

(** [try { body } finally { finalizer }]: the finalizer always runs;
    the completion is the body's unless the finalizer itself leaves
    abruptly. *)
Definition try_finally (body : M S unit) (finalizer : M S unit) : M S unit :=
  fun w =>
    let (c, w') := body w in
    match finalizer w' with
    | (Normal _, w'') => (c, w'')
    | r => r
    end.

(** [try { body } catch (e) { handler e } finally { finalizer }] *)
Definition try_catch_finally (body : M S unit)
  (handler : AxiosError -> M S unit) (finalizer : M S unit) : M S unit :=
  try_finally (try_catch body handler) finalizer.

(** Calling a function: its [return] ends the call, not the caller. *)
Definition call (body : M S unit) : M S unit :=
  fun w =>
    match body w with
    | (Returned, w') => (Normal tt, w')
    | r => r
    end.

(** The world a handler starts in. *)
Definition fresh (s : S) : World S := mkWorld s [] [].

End Ops.

Declare Scope eff_scope.
Delimit Scope eff_scope with eff.
Notation "x <- m ;; k" := (bind m (fun x => k))
  (at level 61, m at next level, right associativity) : eff_scope.
Notation "m ;; k" := (bind m (fun _ => k))
  (at level 61, right associativity) : eff_scope.

End Eff.

(** ** [Calendar.jsx] *)

Module Calendar.
Import JSNumber JSDate JSString Api Eff.
Local Open Scope string_scope.

(** The four [useState] cells.  [selectedDate] may be [null] as far as
    the guards of [isSelected] and [getEventsForDate] are concerned. *)
Record State : Type := mkState {
  currentDate : Date;
  selectedDate : option Date;
  allEvents : list CalendarEvent;
  loading : bool
}.

(** The state on mount; [now] is [new Date()]. *)
Definition initial (now : Date) : State := mkState now (Some now) [] false.

Definition setCurrentDate (d : Date) (s : State) : State :=
  mkState d (selectedDate s) (allEvents s) (loading s).
Definition setSelectedDate (d : option Date) (s : State) : State :=
  mkState (currentDate s) d (allEvents s) (loading s).
Definition setAllEvents (l : list CalendarEvent) (s : State) : State :=
  mkState (currentDate s) (selectedDate s) l (loading s).
Definition setLoading (b : bool) (s : State) : State :=
  mkState (currentDate s) (selectedDate s) (allEvents s) b.

Definition getDaysInMonth (date : Date) : Number :=
  let year := getFullYear date in
  let month := getMonth date in
  getDate (new_Date3 year (add month (Some 1)) (Some 0)).

Definition getFirstDayOfMonth (date : Date) : Number :=
  let year := getFullYear date in
  let month := getMonth date in
  getDay (new_Date3 year month (Some 1)).

Definition prevMonth (s : State) : State :=
  setCurrentDate
    (new_Date2 (getFullYear (currentDate s))
               (sub (getMonth (currentDate s)) (Some 1))) s.

Definition nextMonth (s : State) : State :=
  setCurrentDate
    (new_Date2 (getFullYear (currentDate s))
               (add (getMonth (currentDate s)) (Some 1))) s.

(** [today] is the [new Date()] that [isToday] takes at each call. *)
Definition isToday (s : State) (today : Date) (day : Z) : bool :=
  strict_eq (Some day) (getDate today) &&
  strict_eq (getMonth (currentDate s)) (getMonth today) &&
  strict_eq (getFullYear (currentDate s)) (getFullYear today).

Definition isSelected (s : State) (day : Z) : bool :=
  match selectedDate s with
  | None => false
  | Some sel =>
      strict_eq (Some day) (getDate sel) &&
      strict_eq (getMonth (currentDate s)) (getMonth sel) &&
      strict_eq (getFullYear (currentDate s)) (getFullYear sel)
  end.

Definition handleDateClick (s : State) (day : Z) : State :=
  setSelectedDate
    (Some (new_Date3 (getFullYear (currentDate s))
                     (getMonth (currentDate s)) (Some day))) s.

(** The navigation buttons of the header. *)
Inductive Nav : Type := Prev | Next.

Definition navigate (s : State) (a : Nav) : State :=
  match a with
  | Prev => prevMonth s
  | Next => nextMonth s
  end.

(** *** The grid *)

(** A cell of the grid: a placeholder with its key, or a day with its
    [today] and [selected] classes. *)
Inductive Cell : Type :=
| EmptyCell (key : string)
| DayCell (day : Z) (today selected : bool).

Fixpoint count_from (lo : Z) (n : nat) : list Z :=
  match n with
  | O => []
  | S k => lo :: count_from (lo + 1) k
  end.

(** The values [i] takes in [for (let i = lo; i < hi; i++)]; none when
    [hi] is [NaN]. *)
Definition for_lt (lo : Z) (hi : Number) : list Z :=
  match hi with
  | Some n => count_from lo (Z.to_nat (n - lo))
  | None => []
  end.

(** The values of [for (let i = lo; i <= hi; i++)]. *)
Definition for_le (lo : Z) (hi : Number) : list Z :=
  match hi with
  | Some n => count_from lo (Z.to_nat (n + 1 - lo))
  | None => []
  end.

Definition renderCalendar (s : State) (today : Date) : list Cell :=
  let daysInMonth := getDaysInMonth (currentDate s) in
  let firstDay := getFirstDayOfMonth (currentDate s) in
  map (fun i => EmptyCell ("empty-" ++ Number_toString (Some i)))
      (for_lt 0 firstDay)
  ++
  map (fun day => DayCell day (isToday s today day) (isSelected s day))
      (for_le 1 daysInMonth).

(** *** Fetching *)

(** [response.data || []]; the body of this endpoint is an array of
    events when it is there at all. *)
Definition events_of (r : Response) : list CalendarEvent :=
  match data r with
  | Some (EventsPayload l) => l
  | _ => []
  end.

Definition fetchEvents (api : Backend) : M State unit :=
  (call
     (set (setLoading true) ;;
      try_catch_finally
        (response <- api_get api "/calendar/events" ;;
         set (setAllEvents (events_of response)))
        (fun error =>
           console_error "Failed to fetch calendar events:" error ;;
           set (setAllEvents []))
        (set (setLoading false))))%eff.

(** *** Filtering and the event list *)

(** [event.start?.date] and [event.start?.dateTime] *)
Definition start_date (event : CalendarEvent) : option string :=
  match start event with
  | Some st => Api.date st
  | None => None
  end.

Definition start_dateTime (event : CalendarEvent) : option string :=
  match start event with
  | Some st => dateTime st
  | None => None
  end.

(** The key of [getEventsForDate]. *)
Definition dateYMD (date : Date) : string :=
  Number_toString (getFullYear date) ++ "-" ++
  padStart (Number_toString (add (getMonth date) (Some 1%Z))) 2 "0" ++ "-" ++
  padStart (Number_toString (getDate date)) 2 "0".

Section WithHost.
(** What the host decides: [new Date(s)] for a date-time string (the
    local time value of the instant, [NaN] when [s] does not parse),
    and the locale's rendering of a time of day. *)
Variable Date_parse : string -> Date.
Variable toLocaleTimeString : Date -> string.

Definition event_matches (date : Date) (event : CalendarEvent) : bool :=
  if truthy (start_date event) then
    match start_date event with
    | Some d => d =? dateYMD date
    | None => false
    end
  else if truthy (start_dateTime event) then
    match start_dateTime event with
    | Some dt => toDateString (Date_parse dt) =? toDateString date
    | None => false
    end
  else false.

Definition getEventsForDate (s : State) (date : option Date)
  : list CalendarEvent :=
  match date with
  | None => []
  | Some d => filter (event_matches d) (allEvents s)
  end.

Definition selectedDateEvents (s : State) : list CalendarEvent :=
  getEventsForDate s (selectedDate s).

(** One entry of the event list: the title line, the time line when
    it is rendered, the all-day line when it is rendered. *)
Record EventCard : Type := mkCard {
  card_key : string + nat;
  card_title : string;
  card_time : option string;
  card_all_day : option string
}.

Definition render_event (event : CalendarEvent) (index : nat) : EventCard :=
  mkCard
    (if truthy (id event)
     then match id event with Some i => inl i | None => inr index end
     else inr index)
    (or_else (summary event) "(No title)")
    (if truthy (start_dateTime event)
     then match start_dateTime event with
          | Some dt => Some (toLocaleTimeString (Date_parse dt))
          | None => None
          end
     else None)
    (if truthy (start_date event) then Some "All day" else None).

Fixpoint map_index {A B} (f : A -> nat -> B) (l : list A) (i : nat) : list B :=
  match l with
  | [] => []
  | x :: r => f x i :: map_index f r (S i)
  end.

Inductive EventsPanel : Type :=
| LoadingText
| EventList (cards : list EventCard)
| NoEventsText.

Definition render_events (s : State) : EventsPanel :=
  if loading s then LoadingText
  else if (0 <? List.length (selectedDateEvents s))%nat
       then EventList (map_index render_event (selectedDateEvents s) 0)
       else NoEventsText.

End WithHost.

(** The month and year of the header, when [currentDate] is valid. *)
Definition displayed (s : State) : option (Z * Z) :=
  match getFullYear (currentDate s), getMonth (currentDate s) with
  | Some y, Some m => Some (y, m)
  | _, _ => None
  end.


(** Months counted from January of year 0. *)
Definition month_index (ym : Z * Z) : Z := 12 * fst ym + snd ym.
Definition month_of_index (i : Z) : Z * Z := (i / 12, i mod 12).

Definition events_request : Request := mkRequest GET "/calendar/events" true.

End Calendar.
(** ** [App.jsx] *)

Module App.
Import JSString Api Eff.
Local Open Scope string_scope.

Record State : Type := mkState {
  isAuthenticated : bool;
  userEmail : string;
  isCheckingAuth : bool;
  authError : string
}.

Definition initial : State := mkState false "" true "".

Definition setIsAuthenticated (b : bool) (s : State) : State :=
  mkState b (userEmail s) (isCheckingAuth s) (authError s).
Definition setUserEmail (e : string) (s : State) : State :=
  mkState (isAuthenticated s) e (isCheckingAuth s) (authError s).
Definition setIsCheckingAuth (b : bool) (s : State) : State :=
  mkState (isAuthenticated s) (userEmail s) b (authError s).
Definition setAuthError (e : string) (s : State) : State :=
  mkState (isAuthenticated s) (userEmail s) (isCheckingAuth s) e.

(** [statusRes.data?.authenticated] as a condition *)
Definition authenticated_of (r : Response) : bool :=
  match data r with
  | Some (StatusPayload (Some b)) => b
  | _ => false
  end.

(** [userRes.data?.email ?? ''] *)
Definition email_of (r : Response) : string :=
  match data r with
  | Some (ProfilePayload e) => nullish e ""
  | _ => ""
  end.

Definition checkAuthStatus (api : Backend) : M State unit :=
  (call
     (set (setIsCheckingAuth true) ;;
      set (setAuthError "") ;;
      try_catch_finally
        (statusRes <- api_get api "/auth/status" ;;
         console_log "Auth status response:" (data statusRes) ;;
         (if authenticated_of statusRes then
            try_catch
              (userRes <- api_get api "/user/me" ;;
               set (setUserEmail (email_of userRes)) ;;
               set (setIsAuthenticated true) ;;
               return_)
              (fun userErr =>
                 console_error "Fetching user profile failed:" userErr ;;
                 set (setAuthError
                        (nullish (response_detail userErr)
                                 "Unable to load user profile")))
          else ret tt) ;;
         set (setIsAuthenticated false) ;;
         set (setUserEmail ""))
        (fun error =>
           console_error "Auth status check failed:" error ;;
           set (setIsAuthenticated false) ;;
           set (setUserEmail "") ;;
           set (setAuthError
                  (nullish (response_detail error)
                           "Authentication check failed")))
        (set (setIsCheckingAuth false))))%eff.

(** The [finally] block of [handleLogout]; the call of
    [checkAuthStatus] is not awaited, and nothing follows it. *)
Definition logout_finally (api : Backend) : M State unit :=
  (set (setIsAuthenticated false) ;;
   set (setUserEmail "") ;;
   checkAuthStatus api)%eff.

Definition handleLogout (api : Backend) : M State unit :=
  (call
     (try_catch_finally
        (_ <- api_post api "/auth/logout" ;; ret tt)
        (fun error =>
           console_error "Logout failed:" error ;;
           set (setAuthError
                  (nullish (response_detail error) "Logout failed")))
        (logout_finally api)))%eff.

(** The session area of the navigation bar. *)
Inductive SessionView : Type :=
| CheckingText
| LoggedIn (label : string)
| LoginButton.

Definition render_session (s : State) : SessionView * option string :=
  (if isCheckingAuth s then CheckingText
   else if isAuthenticated s
        then LoggedIn (or_else (Some (userEmail s)) "Authenticated user")
        else LoginButton,
   if negb (authError s =? "") && negb (isCheckingAuth s)
   then Some (authError s) else None).

Definition status_request : Request := mkRequest GET "/auth/status" true.
Definition profile_request : Request := mkRequest GET "/user/me" true.
Definition logout_request : Request := mkRequest POST "/auth/logout" true.

(** The world in which the [finally] block of [handleLogout] calls
    [checkAuthStatus]: the logout request is sent, a failure is logged
    and stored, the two setters of the block have run. *)
Definition after_logout_call (api : Backend) (w : World State) : World State :=
  let s := component w in
  match api logout_request with
  | inl _ =>
      mkWorld (mkState false "" (isCheckingAuth s) (authError s))
              (console w) (sent w ++ [logout_request])%list
  | inr error =>
      mkWorld (mkState false "" (isCheckingAuth s)
                       (nullish (response_detail error) "Logout failed"))
              (console w ++ [ConsoleError "Logout failed:" error])%list
              (sent w ++ [logout_request])%list
  end.

End App.

(** ** A host, and the inputs the examples run on

    [parse_iso_local] covers the date-time form without a UTC offset,
    ["YYYY-MM-DDTHH:mm:ss"], which ECMA-262 reads as local time whatever
    the time zone.  Any other string is an invalid date for this host. *)

Module Host.
Import JSNumber JSDate JSString.
Local Open Scope string_scope.

Definition digit (c : ascii) : option Z :=
  let n := Z.of_N (N_of_ascii c) in
  if ((48 <=? n) && (n <=? 57))%Z then Some (n - 48) else None.

Fixpoint digits (acc : Z) (cs : list ascii) : option Z :=
  match cs with
  | [] => Some acc
  | c :: r => match digit c with
              | Some v => digits (10 * acc + v) r
              | None => None
              end
  end.

Definition parse_iso_local (s : string) : Date :=
  match list_ascii_of_string s with
  | [y1; y2; y3; y4; s1; m1; m2; s2; d1; d2; t;
     h1; h2; c1; n1; n2; c2; e1; e2] =>
      if (s1 =? "-")%char && (s2 =? "-")%char && (t =? "T")%char &&
         (c1 =? ":")%char && (c2 =? ":")%char
      then
        match digits 0 [y1; y2; y3; y4], digits 0 [m1; m2], digits 0 [d1; d2],
              digits 0 [h1; h2], digits 0 [n1; n2], digits 0 [e1; e2] with
        | Some y, Some m, Some d, Some h, Some n, Some e =>
            if ((1 <=? m) && (m <=? 12) && (1 <=? d) &&
                (d <=? Civil.days_in_month y (m - 1)) &&
                (h <=? 23) && (n <=? 59) && (e <=? 59))%Z
            then TimeClip (MakeDate (MakeDay y (m - 1) d)
                                    (h * 3600000 + n * 60000 + e * 1000))
            else NaN
        | _, _, _, _, _, _ => NaN
        end
      else NaN
  | _ => NaN
  end.

(** A 24-hour ["HH:MM"] rendering. *)
Definition time_HH_MM (d : Date) : string :=
  match d with
  | Some t =>
      ToZeroPaddedDecimalString ((t / 3600000) mod 24) 2 ++ ":" ++
      ToZeroPaddedDecimalString ((t / 60000) mod 60) 2
  | None => "Invalid Date"
  end.

End Host.


(** ** The specification's vocabulary *)

Module CalendarSpec.
Import JSNumber JSDate JSString Api Calendar.
Local Open Scope string_scope.

(** A field is populated when it is present and not the empty string. *)
Definition populated (v : option string) : Prop :=
  exists s, v = Some s /\ s <> "".

(** Two dates fall on the same local calendar day. *)
Definition same_local_day (a b : Date) : Prop :=
  exists ta tb, a = Some ta /\ b = Some tb /\
    YearFromTime ta = YearFromTime tb /\
    MonthFromTime ta = MonthFromTime tb /\
    DateFromTime ta = DateFromTime tb.

Section Rules.
Variable Date_parse : string -> Date.
Variable selected : Date.

(** (a) an all-day [start.date] equal to the key of the selected date *)
Definition all_day_on_selected (e : CalendarEvent) : Prop :=
  start_date e = Some (dateYMD selected).

(** (b) a timed [start.dateTime] whose local day is the selected one *)
Definition timed_on_selected (e : CalendarEvent) : Prop :=
  exists dt, start_dateTime e = Some dt /\ dt <> "" /\
             same_local_day (Date_parse dt) selected.

(** The rule as the specification words it: (a) or (b). *)
Definition matches_either (e : CalendarEvent) : Prop :=
  all_day_on_selected e \/ timed_on_selected e.

(** The rule with the all-day field first: (b) counts only for an event
    whose [start.date] is not populated. *)
Definition matches_all_day_first (e : CalendarEvent) : Prop :=
  all_day_on_selected e \/
  (~ populated (start_date e) /\ timed_on_selected e).

End Rules.

(** [Filtered P l r]: [r] is the subsequence of [l], in the order of [l],
    of the elements that satisfy [P]. *)
Inductive Filtered {A : Type} (P : A -> Prop) : list A -> list A -> Prop :=
| Filtered_nil : Filtered P [] []
| Filtered_keep x l r : P x -> Filtered P l r -> Filtered P (x :: l) (x :: r)
| Filtered_drop x l r : ~ P x -> Filtered P l r -> Filtered P (x :: l) r.


End CalendarSpec.

(** ** Inputs of the examples *)

Module Examples.
Import JSNumber JSDate Api Eff.
Local Open Scope string_scope.

Definition march_5 : Date := new_Date3 (Some 2024) (Some 2) (Some 5).

Definition march_2024 : Calendar.State :=
  Calendar.mkState march_5 (Some march_5) [] false.

(** January of the year 100, and the December before it, one click on
    the "previous" button away. *)
Definition january_100 : Calendar.State :=
  Calendar.mkState (new_Date2 (Some 100) (Some 0)) (Some march_5) [] false.

Definition december_99 : Calendar.State := Calendar.prevMonth january_100.

Definition all_day_event : CalendarEvent :=
  mkEvent (Some "e1") (Some "Holiday")
          (Some (mkStart (Some "2024-03-05") None)) None.

Definition other_day_event : CalendarEvent :=
  mkEvent None (Some "Later")
          (Some (mkStart None (Some "2024-03-06T09:00:00"))) None.

Definition timed_event : CalendarEvent :=
  mkEvent (Some "e3") None
          (Some (mkStart None (Some "2024-03-05T23:30:00"))) None.

Definition no_start_event : CalendarEvent :=
  mkEvent (Some "e4") (Some "Draft") (Some (mkStart None None)) None.

(** An all-day date on the 6th together with a time on the 5th. *)
Definition both_fields_event : CalendarEvent :=
  mkEvent (Some "e5") (Some "Review")
          (Some (mkStart (Some "2024-03-06") (Some "2024-03-05T10:00:00")))
          None.

(** An all-day date and a time, both on the 5th. *)
Definition all_day_with_time_event : CalendarEvent :=
  mkEvent (Some "e6") (Some "Offsite")
          (Some (mkStart (Some "2024-03-05") (Some "2024-03-05T10:00:00")))
          None.

Definition fetched : list CalendarEvent :=
  [all_day_event; other_day_event; timed_event; no_start_event].

Definition with_events (l : list CalendarEvent) : Calendar.State :=
  Calendar.mkState march_5 (Some march_5) l false.

Definition network_error : AxiosError := mkError None.

Definition detailed_error (d : string) : AxiosError :=
  mkError (Some (mkErrorResponse (Some (mkErrorData (Some d))))).

Definition request_eqb (a b : Request) : bool :=
  match method a, method b with
  | GET, GET | POST, POST =>
      (url a =? url b) && Bool.eqb (withCredentials a) (withCredentials b)
  | _, _ => false
  end.

(** Every request fails in transport. *)
Definition backend_down : Backend := fun _ => inr network_error.

(** The session is alive and the profile endpoint fails with [e]. *)
Definition profile_fails (e : AxiosError) : Backend :=
  fun r => if request_eqb r App.status_request
           then inl (mkResponse (Some (StatusPayload (Some true))))
           else inr e.

(** The logout call fails and the session stays alive. *)
Definition logout_fails_session_alive : Backend :=
  fun r => if request_eqb r App.status_request
           then inl (mkResponse (Some (StatusPayload (Some true))))
           else if request_eqb r App.profile_request
           then inl (mkResponse (Some (ProfilePayload (Some "ada@example.org"))))
           else inr (detailed_error "Server error").

Definition signed_in : App.State :=
  App.mkState true "ada@example.org" false "".

End Examples.

(** ** The rest of [Calendar.jsx]: header, panel title, marks, listeners *)

Module CalendarView.
Import JSNumber JSDate JSString Api Eff Calendar.
Local Open Scope string_scope.

Definition monthNames : list string :=
  ["January"; "February"; "March"; "April"; "May"; "June";
   "July"; "August"; "September"; "October"; "November"; "December"].

(** [monthNames[i]]: [undefined] for [NaN] and outside the array. *)
Definition monthNames_at (i : Number) : option string :=
  match i with
  | Some z => if (z <? 0)%Z then None else nth_error monthNames (Z.to_nat z)
  | None => None
  end.

(** The text of the header,
    [{monthNames[currentDate.getMonth()]} {currentDate.getFullYear()}];
    [undefined] renders as nothing. *)
Definition header (s : State) : string :=
  match monthNames_at (getMonth (currentDate s)) with
  | Some name => name
  | None => ""
  end ++ " " ++ Number_toString (getFullYear (currentDate s)).

(** The classes of a cell. *)
Definition marked_today (c : Cell) : bool :=
  match c with
  | DayCell _ t _ => t
  | EmptyCell _ => false
  end.


Section WithLocale.
(** [d.toLocaleDateString('en-US', { month: 'short', day: 'numeric' })],
    left to the host. *)
Variable toLocaleDateString : Date -> string.

(** [today] is the [new Date()] of the call. *)
Definition formatEventDate (s : State) (today : Date) : string :=
  match selectedDate s with
  | None => "Today's"
  | Some sel =>
      if toDateString sel =? toDateString today then "Today's"
      else toLocaleDateString sel ++ "'s"
  end.

End WithLocale.

(** *** The listeners of the mount effect

    [window] keeps a list of listeners; a listener is an event name and
    a callback, and a callback is known by its identity (the closure
    [handleEventChange] is a new one at every mount). *)

Record Listener : Type := mkListener {
  event_type : string;
  callback : nat
}.

Definition listener_eqb (a b : Listener) : bool :=
  (event_type a =? event_type b) && Nat.eqb (callback a) (callback b).

Definition Window : Type := list Listener.

(** [window.addEventListener(type, cb)]: a listener that is there
    already is not added again. *)
Definition addEventListener (win : Window) (type : string) (cb : nat) : Window :=
  if existsb (listener_eqb (mkListener type cb)) win then win
  else (win ++ [mkListener type cb])%list.

(** [window.removeEventListener(type, cb)] *)
Fixpoint removeEventListener (win : Window) (type : string) (cb : nat) : Window :=
  match win with
  | [] => []
  | l :: rest =>
      if listener_eqb (mkListener type cb) l then rest
      else l :: removeEventListener rest type cb
  end.

(** The page: the listeners of [window] and the component. *)
Definition Page : Type := (Window * World State)%type.

(** The body of the effect: fetch, then listen to the two signals. *)
Definition effect_mount (api : Backend) (handleEventChange : nat) (p : Page)
  : Page :=
  let w := snd (fetchEvents api (snd p)) in
  let win := addEventListener (fst p) "kanban-event-added" handleEventChange in
  let win := addEventListener win "kanban-event-deleted" handleEventChange in
  (win, w).

(** The cleanup the effect returns. *)
Definition effect_cleanup (handleEventChange : nat) (p : Page) : Page :=
  let win := removeEventListener (fst p) "kanban-event-added" handleEventChange in
  let win := removeEventListener win "kanban-event-deleted" handleEventChange in
  (win, snd p).

(** A signal of the given name reaches [handleEventChange], which calls
    [fetchEvents], when that callback is listening to it. *)
Definition dispatchEvent (api : Backend) (type : string)
  (handleEventChange : nat) (p : Page) : Page :=
  if existsb (listener_eqb (mkListener type handleEventChange)) (fst p)
  then (fst p, snd (fetchEvents api (snd p)))
  else p.

(** *** Vocabulary of the statements *)

(** No listener of [win] has the callback [h]: the closure is new. *)
Definition foreign (h : nat) (win : Window) : Prop :=
  forall l, In l win -> callback l <> h.

(** The calendar date "YYYY-MM-DD" of a day; months count from 0. *)
Definition iso_date (y m d : Z) : string :=
  ToZeroPaddedDecimalString y 4 ++ "-" ++
  ToZeroPaddedDecimalString (m + 1) 2 ++ "-" ++
  ToZeroPaddedDecimalString d 2.

(** The years 1000 to 9999, for the proofs that run through them. *)
Definition four_digit_years : list Z :=
  map (fun k => 1000 + Z.of_nat k)%Z (seq 0 (Z.to_nat 9000)).

(** More inputs of the examples. *)
Definition march_12 : Date := new_Date3 (Some 2024) (Some 2) (Some 12).

Definition other_listener : Listener := mkListener "kanban-event-added" 7.

End CalendarView.

(** ** The outcome of a status check *)

Module AppView.
Import JSString Api Eff App.
Local Open Scope string_scope.

(** The state a status check ends in, read off the replies of the two
    endpoints. *)
Definition check_outcome (api : Backend) : State :=
  match api status_request with
  | inr error =>
      mkState false "" false
              (nullish (response_detail error) "Authentication check failed")
  | inl statusRes =>
      if authenticated_of statusRes then
        match api profile_request with
        | inl userRes => mkState true (email_of userRes) false ""
        | inr userErr =>
            mkState false "" false
                    (nullish (response_detail userErr)
                             "Unable to load user profile")
        end
      else mkState false "" false ""
  end.

End AppView.

(** * Proofs *)

(** ** The date algorithms *)

Module DateFacts.
Import JSNumber JSDate.

Ltac div_lia := Z.to_euclidean_division_equations; lia.

Ltac month_cases m :=
  let H := fresh in
  assert (H : m = 0 \/ m = 1 \/ m = 2 \/ m = 3 \/ m = 4 \/ m = 5 \/ m = 6 \/
              m = 7 \/ m = 8 \/ m = 9 \/ m = 10 \/ m = 11) by lia;
  repeat (destruct H as [H | H]; [ subst m | ]); [ .. | subst m ].

Ltac leap_cases y :=
  destruct (Civil.is_leap_year y);
  change (366 =? 366) with true in *; change (365 =? 366) with false in *;
  cbv beta iota in *.

Lemma DayFromYear_succ y : DayFromYear (y + 1) = DayFromYear y + DaysInYear y.
Proof.
  unfold DayFromYear, DaysInYear.
  repeat match goal with
         | |- context [ ?a =? ?b ] => destruct (Z.eqb_spec a b)
         end; div_lia.
Qed.

Lemma DaysInYear_leap y :
  DaysInYear y = if Civil.is_leap_year y then 366 else 365.
Proof.
  unfold DaysInYear, Civil.is_leap_year.
  repeat match goal with
         | |- context [ ?a =? ?b ] => destruct (Z.eqb_spec a b)
         end; simpl; try reflexivity; div_lia.
Qed.

Lemma DayFromYear_mono y1 y2 : y1 <= y2 -> DayFromYear y1 <= DayFromYear y2.
Proof. unfold DayFromYear. intros. div_lia. Qed.

(** The mean-year quotient is at most one year off, so one of the three
    candidates of [YearFromTime] is the year that contains the day. *)
Lemma YearFromTime_spec t :
  DayFromYear (YearFromTime t) <= Day t < DayFromYear (YearFromTime t + 1).
Proof.
  unfold YearFromTime. set (d := Day t).
  set (e := 1970 + 400 * d / 146097).
  assert (He : 146097 * (e - 1970) <= 400 * d < 146097 * (e - 1970) + 146097)
    by (unfold e; div_lia).
  clearbody e. clearbody d.
  assert (H1 : DayFromYear (e - 1) <= d) by (unfold DayFromYear; div_lia).
  assert (H2 : d < DayFromYear (e + 2)) by (unfold DayFromYear; div_lia).
  destruct (Z.leb_spec (DayFromYear (e + 1)) d).
  - replace (e + 1 + 1) with (e + 2) by lia. lia.
  - destruct (Z.leb_spec (DayFromYear e) d).
    + lia.
    + replace (e - 1 + 1) with e by lia. lia.
Qed.

Lemma YearFromTime_unique t y :
  DayFromYear y <= Day t < DayFromYear (y + 1) -> YearFromTime t = y.
Proof.
  intros H. pose proof (YearFromTime_spec t) as S.
  destruct (Z.lt_trichotomy (YearFromTime t) y) as [L | [E | G]]; [ | exact E | ].
  - assert (DayFromYear (YearFromTime t + 1) <= DayFromYear y)
      by (apply DayFromYear_mono; lia). lia.
  - assert (DayFromYear (y + 1) <= DayFromYear (YearFromTime t))
      by (apply DayFromYear_mono; lia). lia.
Qed.

Lemma TimeFromYear_le_iff y t : TimeFromYear y <= t <-> DayFromYear y <= Day t.
Proof. unfold TimeFromYear, Day, msPerDay. split; intros; div_lia. Qed.

(** [YearFromTime] as ECMA-262 words it: the largest year that starts at
    or before [t]. *)
Lemma YearFromTime_largest t :
  TimeFromYear (YearFromTime t) <= t /\
  forall y, TimeFromYear y <= t -> y <= YearFromTime t.
Proof.
  pose proof (YearFromTime_spec t) as S. split.
  - apply TimeFromYear_le_iff. lia.
  - intros y H. apply TimeFromYear_le_iff in H.
    destruct (Z_le_gt_dec y (YearFromTime t)) as [L | G]; [ exact L | ].
    assert (DayFromYear (YearFromTime t + 1) <= DayFromYear y)
      by (apply DayFromYear_mono; lia). lia.
Qed.

Lemma Day_MakeDate d time :
  0 <= time < msPerDay -> Day (MakeDate d time) = d.
Proof. unfold Day, MakeDate, msPerDay. intros. div_lia. Qed.

Lemma DayWithinYear_range t :
  0 <= DayWithinYear t < DaysInYear (YearFromTime t).
Proof.
  unfold DayWithinYear. pose proof (YearFromTime_spec t) as S.
  rewrite DayFromYear_succ in S. lia.
Qed.

Lemma InLeapYear_days t :
  DaysInYear (YearFromTime t) = 365 + InLeapYear t /\
  (InLeapYear t = 0 \/ InLeapYear t = 1).
Proof.
  unfold InLeapYear. rewrite DaysInYear_leap.
  destruct (Civil.is_leap_year (YearFromTime t)); simpl; lia.
Qed.

Lemma MonthFromTime_range t : 0 <= MonthFromTime t <= 11.
Proof.
  unfold MonthFromTime.
  repeat match goal with
         | |- context [ ?a <? ?b ] => destruct (a <? b)
         end; lia.
Qed.

Lemma DateFromTime_range t : 1 <= DateFromTime t <= 31.
Proof.
  pose proof (DayWithinYear_range t) as R.
  destruct (InLeapYear_days t) as [E L]. rewrite E in R.
  unfold DateFromTime, MonthFromTime.
  set (d := DayWithinYear t) in *. set (l := InLeapYear t) in *.
  clearbody d l.
  repeat match goal with
         | |- context [ ?a <? ?b ] => destruct (Z.ltb_spec a b)
         end; cbv beta iota; lia.
Qed.

(** The year, the month and the date of a time value determine its day. *)
Lemma Day_of_fields a b :
  YearFromTime a = YearFromTime b ->
  MonthFromTime a = MonthFromTime b ->
  DateFromTime a = DateFromTime b ->
  Day a = Day b.
Proof.
  intros HY HM HD.
  assert (HL : InLeapYear a = InLeapYear b) by (unfold InLeapYear; now rewrite HY).
  assert (HW : DayWithinYear a = DayWithinYear b).
  { unfold DateFromTime in HD. rewrite HM, HL in HD.
    destruct (MonthFromTime b) as [ | p | p ]; try lia;
      repeat (destruct p as [ p | p | ]; try lia). }
  unfold DayWithinYear in HW. rewrite HY in HW. lia.
Qed.

Lemma MakeDay_in_year y m dt :
  0 <= m <= 11 ->
  MakeDay y m dt = DayFromYear y + DaysBeforeMonth y m + dt - 1.
Proof.
  intros Hm. unfold MakeDay.
  replace (m / 12) with 0 by div_lia.
  replace (m mod 12) with m by div_lia.
  now rewrite Z.add_0_r.
Qed.

(** Months outside 0..11 carry into the year. *)
Lemma MakeDay_carry y m dt :
  MakeDay y m dt = MakeDay (y + m / 12) (m mod 12) dt.
Proof.
  unfold MakeDay.
  replace (m mod 12 / 12) with 0 by div_lia.
  replace (m mod 12 mod 12) with (m mod 12) by div_lia.
  now rewrite Z.add_0_r.
Qed.

Lemma DaysBeforeMonth_next y m :
  0 <= m <= 10 ->
  DaysBeforeMonth y (m + 1) = DaysBeforeMonth y m + Civil.days_in_month y m.
Proof.
  intros Hm. unfold DaysBeforeMonth, Civil.days_in_month.
  rewrite DaysInYear_leap.
  month_cases m; try lia; destruct (Civil.is_leap_year y); reflexivity.
Qed.

Lemma DaysBeforeMonth_december y :
  DaysBeforeMonth y 11 + Civil.days_in_month y 11 = DaysInYear y.
Proof.
  unfold DaysBeforeMonth, Civil.days_in_month. rewrite DaysInYear_leap.
  destruct (Civil.is_leap_year y); reflexivity.
Qed.

Lemma days_in_month_range y m : 28 <= Civil.days_in_month y m <= 31.
Proof.
  unfold Civil.days_in_month. destruct (Civil.is_leap_year y).
  all: destruct m as [ | p | p ]; try lia;
       repeat (destruct p as [ p | p | ]; try lia).
Qed.

Lemma DaysBeforeMonth_bound y m dt :
  0 <= m <= 11 -> 1 <= dt <= Civil.days_in_month y m ->
  0 <= DaysBeforeMonth y m + dt - 1 < DaysInYear y.
Proof.
  intros Hm Hd. rewrite <- DaysBeforeMonth_december.
  unfold DaysBeforeMonth, Civil.days_in_month in *.
  rewrite DaysInYear_leap.
  month_cases m; leap_cases y; lia.
Qed.

(** Reading back the fields of a date built from a year, a month and a
    day of that month. *)
Lemma fields_of_MakeDay y m dt time :
  0 <= m <= 11 -> 1 <= dt <= Civil.days_in_month y m ->
  0 <= time < msPerDay ->
  let t := MakeDate (MakeDay y m dt) time in
  YearFromTime t = y /\ MonthFromTime t = m /\ DateFromTime t = dt.
Proof.
  intros Hm Hd Ht t.
  assert (HD : Day t = DayFromYear y + DaysBeforeMonth y m + dt - 1).
  { unfold t. rewrite Day_MakeDate by assumption. now apply MakeDay_in_year. }
  pose proof (DaysBeforeMonth_bound y m dt Hm Hd) as B.
  assert (HY : YearFromTime t = y).
  { apply YearFromTime_unique. rewrite DayFromYear_succ. lia. }
  assert (HW : DayWithinYear t = DaysBeforeMonth y m + dt - 1).
  { unfold DayWithinYear. rewrite HY. lia. }
  assert (HM : MonthFromTime t = m).
  { unfold MonthFromTime, InLeapYear. rewrite HW, HY.
    clear HD HY HW B. unfold DaysBeforeMonth, Civil.days_in_month in *.
    rewrite DaysInYear_leap.
    month_cases m; leap_cases y;
      repeat match goal with
             | |- context [ ?a <? ?b ] => destruct (Z.ltb_spec a b); try lia
             end. }
  split; [ exact HY | split; [ exact HM | ] ].
  unfold DateFromTime, InLeapYear. rewrite HM, HW, HY.
  unfold DaysBeforeMonth. rewrite DaysInYear_leap.
  clear. leap_cases y.
  all: destruct m as [ | p | p ]; try lia;
       repeat (destruct p as [ p | p | ]; try lia).
Qed.

(** [MakeDay] as ECMA-262 words it: the day of a time value in year
    [ym], month [mn], on the first of the month, moved by [dt - 1]. *)
Lemma MakeDay_first y m :
  let t := MakeDate (MakeDay y m 1) 0 in
  YearFromTime t = y + m / 12 /\
  MonthFromTime t = m mod 12 /\
  DateFromTime t = 1 /\
  forall dt, MakeDay y m dt = Day t + dt - 1.
Proof.
  intros t. unfold t. rewrite MakeDay_carry.
  assert (Hm : 0 <= m mod 12 <= 11) by div_lia.
  pose proof (days_in_month_range (y + m / 12) (m mod 12)) as Hd.
  destruct (fields_of_MakeDay (y + m / 12) (m mod 12) 1 0 Hm)
    as (HY & HM & HD); [ lia | unfold msPerDay; lia | ].
  repeat split; try assumption.
  intros dt. rewrite Day_MakeDate by (unfold msPerDay; lia).
  rewrite (MakeDay_carry y m dt). rewrite !MakeDay_in_year by assumption. lia.
Qed.

(** Day 0 of the next month is the last day of this one. *)
Lemma MakeDay_day_zero y m :
  0 <= m <= 11 ->
  MakeDay y (m + 1) 0 = MakeDay y m (Civil.days_in_month y m).
Proof.
  intros Hm. destruct (Z.eq_dec m 11) as [-> | Hne].
  - rewrite MakeDay_carry. change ((11 + 1) / 12) with 1.
    change ((11 + 1) mod 12) with 0.
    rewrite !MakeDay_in_year by lia. rewrite DayFromYear_succ.
    rewrite <- DaysBeforeMonth_december.
    change (DaysBeforeMonth (y + 1) 0) with 0. lia.
  - rewrite !MakeDay_in_year by lia.
    rewrite DaysBeforeMonth_next by lia. lia.
Qed.

(** The day of the week of the date algorithms is the one of the civil
    calendar. *)
Lemma WeekDay_MakeDay y m d time :
  0 <= m <= 11 -> 0 <= time < msPerDay ->
  WeekDay (MakeDate (MakeDay y m d) time) = Civil.weekday y m d.
Proof.
  intros Hm Ht. unfold WeekDay. rewrite Day_MakeDate by assumption.
  rewrite MakeDay_in_year by assumption.
  unfold Civil.weekday, Civil.sakamoto_offset, DaysBeforeMonth, DayFromYear.
  rewrite DaysInYear_leap. unfold Civil.is_leap_year.
  destruct (Z.eqb_spec (y mod 4) 0), (Z.eqb_spec (y mod 100) 0),
    (Z.eqb_spec (y mod 400) 0);
    cbn [andb orb negb];
    change (366 =? 366) with true; change (365 =? 366) with false;
    month_cases m; cbv beta iota;
    repeat match goal with
           | |- context [ ?a <? ?b ] => destruct (Z.ltb_spec a b); try lia
           end;
    div_lia.
Qed.

(** The civil week runs on across the end of a month and of a year. *)
Lemma weekday_next_month y m :
  0 <= m <= 11 ->
  let (y', m') := Civil.next_month (y, m) in
  Civil.weekday y' m' 1 =
  (Civil.weekday y m (Civil.days_in_month y m) + 1) mod 7.
Proof.
  intros Hm. unfold Civil.next_month.
  assert (Ht : 0 <= 0 < msPerDay) by (unfold msPerDay; lia).
  rewrite <- (WeekDay_MakeDay y m _ 0 Hm Ht).
  rewrite <- MakeDay_day_zero by assumption.
  destruct (Z.eqb_spec m 11) as [-> | N].
  - rewrite <- (WeekDay_MakeDay (y + 1) 0 1 0) by (unfold msPerDay; lia).
    rewrite (MakeDay_carry y (11 + 1) 0).
    change ((11 + 1) / 12) with 1. change ((11 + 1) mod 12) with 0.
    unfold WeekDay. rewrite !Day_MakeDate by assumption.
    unfold MakeDay. div_lia.
  - rewrite <- (WeekDay_MakeDay y (m + 1) 1 0) by (unfold msPerDay; lia).
    unfold WeekDay. rewrite !Day_MakeDate by assumption.
    unfold MakeDay. div_lia.
Qed.

Example weekday_anchors :
  Civil.weekday 1970 0 1 = 4 /\ Civil.weekday 2000 0 1 = 6 /\
  Civil.weekday 2024 1 29 = 4.
Proof. repeat split. Qed.

Lemma MakeFullYear_literal y : literal_year y -> MakeFullYear y = y.
Proof.
  unfold literal_year, MakeFullYear. intros H.
  destruct (Z.leb_spec 0 y), (Z.leb_spec y 99); simpl; lia.
Qed.

Lemma TimeClip_days d :
  -100000000 <= d <= 100000000 ->
  TimeClip (MakeDate d 0) = Some (MakeDate d 0).
Proof.
  intros H. unfold TimeClip, MakeDate, msPerDay.
  destruct (Z.leb_spec (Z.abs (d * 86400000 + 0)) 8640000000000000);
    [ reflexivity | lia ].
Qed.

Lemma MakeDay_range y m d :
  0 <= m <= 11 -> 1 <= d <= Civil.days_in_month y m ->
  whole_month_in_range (y, m) ->
  -100000000 <= MakeDay y m d <= 100000000.
Proof.
  unfold whole_month_in_range. cbn [fst snd]. intros Hm Hd Hr.
  rewrite MakeDay_in_year by assumption.
  pose proof (DaysBeforeMonth_bound y m d Hm Hd) as B.
  assert (Hy : y = -271821 \/ y = 275760 \/ -271820 <= y <= 275759) by lia.
  destruct Hy as [-> | [-> | Hy]].
  - change (DayFromYear (-271821)) with (-100000109).
    assert (120 <= DaysBeforeMonth (-271821) m)
      by (month_cases m; try lia; vm_compute; discriminate).
    change (DaysInYear (-271821)) with 365 in B. lia.
  - change (DayFromYear 275760) with 99999744.
    assert (DaysBeforeMonth 275760 m + Civil.days_in_month 275760 m <= 244)
      by (month_cases m; try lia; vm_compute; discriminate).
    lia.
  - pose proof (DayFromYear_mono (-271820) y ltac:(lia)) as L.
    pose proof (DayFromYear_mono (y + 1) 275760 ltac:(lia)) as U.
    rewrite DayFromYear_succ in U.
    change (DayFromYear (-271820)) with (-99999744) in L.
    change (DayFromYear 275760) with 99999744 in U. lia.
Qed.

Lemma MakeDay_first_range y m :
  0 <= m <= 11 -> first_day_in_range (y, m) ->
  -100000000 <= MakeDay y m 1 <= 100000000.
Proof.
  unfold first_day_in_range. cbn [fst snd]. intros Hm Hr.
  destruct (Z.eq_dec (12 * y + m) (275760 * 12 + 8)) as [E | N].
  - assert (y = 275760) by lia. assert (m = 8) by lia. subst.
    vm_compute. split; discriminate.
  - apply MakeDay_range;
      [ assumption | | unfold whole_month_in_range; cbn [fst snd]; lia ].
    pose proof (days_in_month_range y m). lia.
Qed.

(** [new Date(y, m)]: the first day of the month [m] of the year the
    constructor makes of [y], months outside 0..11 carried over. *)
Lemma new_Date2_general y m :
  first_day_in_range (MakeFullYear y + m / 12, m mod 12) ->
  exists t, new_Date2 (Some y) (Some m) = Some t /\
            YearFromTime t = MakeFullYear y + m / 12 /\
            MonthFromTime t = m mod 12 /\
            DateFromTime t = 1.
Proof.
  intros Hr. unfold new_Date2, new_Date3.
  rewrite MakeDay_carry.
  assert (Hm : 0 <= m mod 12 <= 11) by div_lia.
  rewrite TimeClip_days by (now apply MakeDay_first_range).
  eexists. split; [ reflexivity | ].
  apply fields_of_MakeDay; [ assumption | | unfold msPerDay; lia ].
  pose proof (days_in_month_range (MakeFullYear y + m / 12) (m mod 12)). lia.
Qed.

Lemma new_Date2_fields y m :
  literal_year y -> first_day_in_range (y + m / 12, m mod 12) ->
  exists t, new_Date2 (Some y) (Some m) = Some t /\
            YearFromTime t = y + m / 12 /\
            MonthFromTime t = m mod 12 /\
            DateFromTime t = 1.
Proof.
  intros Hy Hr. pose proof (MakeFullYear_literal y Hy) as F.
  destruct (new_Date2_general y m) as (t & E & HY & HM & HD).
  - now rewrite F.
  - exists t. rewrite F in HY. tauto.
Qed.

End DateFacts.

(** ** Date strings *)

Module StringFacts.
Import JSNumber JSDate JSString DateFacts.
Local Open Scope string_scope.

Lemma append_inj_length (a a' b b' : string) :
  String.length a = String.length a' -> a ++ b = a' ++ b' -> a = a' /\ b = b'.
Proof.
  revert a'. induction a as [ | c a IH ]; intros [ | c' a' ]; simpl;
    try discriminate.
  - intros _ H. now split.
  - intros L H. injection L as L. injection H as -> H.
    destruct (IH a' L H) as [-> ->]. now split.
Qed.

Lemma decimal_value_zero s :
  decimal_value (String "0" s) = decimal_value s.
Proof.
  unfold decimal_value. simpl.
  destruct (NilEmpty.uint_of_string s); reflexivity.
Qed.

Lemma decimal_value_repeat_zero k s :
  decimal_value (repeat_char "0" k ++ s) = decimal_value s.
Proof.
  induction k as [ | k IH ]; simpl; [ reflexivity | ].
  now rewrite decimal_value_zero.
Qed.

Lemma decimal_value_minus s : decimal_value (String "-" s) = None.
Proof.
  unfold decimal_value. simpl.
  destruct (NilEmpty.uint_of_string s); reflexivity.
Qed.

Lemma N_to_uint_nonnil n : N.to_uint n <> Decimal.Nil.
Proof.
  destruct n as [ | p ]; simpl; [ discriminate | ].
  intros H. pose proof (DecimalPos.Unsigned.of_to p) as E.
  rewrite H in E. discriminate.
Qed.

(** A padded number reads back as the number. *)
Lemma decimal_value_padded n k :
  decimal_value (ToZeroPaddedDecimalString n k) = Some (Z.to_N n).
Proof.
  unfold ToZeroPaddedDecimalString, padStart.
  rewrite decimal_value_repeat_zero. unfold decimal_value.
  pose proof (N_to_uint_nonnil (Z.to_N n)) as NN.
  unfold NilZero.string_of_uint.
  destruct (N.to_uint (Z.to_N n)) eqn:E; try (now elim NN);
    rewrite <- E, NilEmpty.usu; simpl; now rewrite DecimalN.Unsigned.of_to.
Qed.

Lemma ToZeroPaddedDecimalString_inj a b k k' :
  (0 <= a)%Z -> (0 <= b)%Z ->
  ToZeroPaddedDecimalString a k = ToZeroPaddedDecimalString b k' -> a = b.
Proof.
  intros Ha Hb H. apply (f_equal decimal_value) in H.
  rewrite !decimal_value_padded in H. injection H as H. lia.
Qed.

Lemma weekdayName_length w : String.length (weekdayName w) = 3%nat.
Proof.
  unfold weekdayName. destruct w as [ | p | p ]; try reflexivity;
    repeat (destruct p as [ p | p | ]; try reflexivity).
Qed.

Lemma monthName_length m : String.length (monthName m) = 3%nat.
Proof.
  unfold monthName. destruct m as [ | p | p ]; try reflexivity;
    repeat (destruct p as [ p | p | ]; try reflexivity).
Qed.

Lemma monthName_inj a b :
  (0 <= a <= 11)%Z -> (0 <= b <= 11)%Z -> monthName a = monthName b -> a = b.
Proof.
  intros Ha Hb E. month_cases a; month_cases b;
    try reflexivity; discriminate E.
Qed.

Lemma two_digits_length n :
  (0 <= n <= 31)%Z -> String.length (ToZeroPaddedDecimalString n 2) = 2%nat.
Proof.
  intros H. rewrite <- (Z2Nat.id n) by lia.
  assert (L : (Z.to_nat n < 32)%nat) by lia.
  generalize dependent (Z.to_nat n). clear. intros k L.
  do 32 (destruct k as [ | k ]; [ reflexivity | ]). lia.
Qed.

Lemma yearString_inj a b : yearString a = yearString b -> a = b.
Proof.
  unfold yearString.
  destruct (Z.leb_spec 0 a) as [La | La], (Z.leb_spec 0 b) as [Lb | Lb];
    simpl; intros E.
  - apply ToZeroPaddedDecimalString_inj in E; lia.
  - apply (f_equal decimal_value) in E.
    now rewrite decimal_value_padded, decimal_value_minus in E.
  - apply (f_equal decimal_value) in E.
    now rewrite decimal_value_padded, decimal_value_minus in E.
  - injection E as E. apply ToZeroPaddedDecimalString_inj in E; lia.
Qed.

(** Equal date strings come from the same day. *)
Lemma DateString_fields a b :
  DateString a = DateString b ->
  YearFromTime a = YearFromTime b /\
  MonthFromTime a = MonthFromTime b /\
  DateFromTime a = DateFromTime b.
Proof.
  unfold DateString. intros H.
  apply append_inj_length in H; [ | now rewrite !weekdayName_length ].
  destruct H as [_ H]. injection H as H.
  apply append_inj_length in H; [ | now rewrite !monthName_length ].
  destruct H as [HM H]. injection H as H.
  pose proof (DateFromTime_range a) as Ra. pose proof (DateFromTime_range b) as Rb.
  apply append_inj_length in H; [ | rewrite !two_digits_length; lia ].
  destruct H as [HD H]. injection H as H.
  apply yearString_inj in H.
  split; [ exact H | split ].
  - apply monthName_inj; [ apply MonthFromTime_range .. | exact HM ].
  - apply ToZeroPaddedDecimalString_inj in HD; lia.
Qed.

Lemma DateString_of_fields a b :
  YearFromTime a = YearFromTime b ->
  MonthFromTime a = MonthFromTime b ->
  DateFromTime a = DateFromTime b ->
  DateString a = DateString b.
Proof.
  intros HY HM HD. unfold DateString, WeekDay.
  now rewrite (Day_of_fields a b HY HM HD), HY, HM, HD.
Qed.

Lemma DateString_not_invalid t : DateString t <> "Invalid Date".
Proof.
  unfold DateString. intros H.
  apply (append_inj_length _ "Inv" _ "alid Date") in H;
    [ | apply weekdayName_length ].
  destruct H as [_ H]. discriminate.
Qed.

Example date_strings :
  toDateString (new_Date3 (Some 2024) (Some 2) (Some 5)) = "Tue Mar 05 2024" /\
  toDateString (new_Date3 (Some (-5)) (Some 1) (Some 1)) = "Wed Feb 01 -0005" /\
  toDateString NaN = "Invalid Date".
Proof. vm_compute. repeat split. Qed.

End StringFacts.

(** ** The calendar grid and the navigation *)

Module GridFacts.
Import JSNumber JSDate JSString DateFacts Calendar CalendarSpec Examples.

Lemma displayed_inv s y m :
  displayed s = Some (y, m) ->
  exists t, currentDate s = Some t /\ YearFromTime t = y /\ MonthFromTime t = m.
Proof.
  unfold displayed, getFullYear, getMonth.
  destruct (currentDate s) as [t | ]; simpl; [ | discriminate ].
  intros H. injection H as <- <-. now exists t.
Qed.

Lemma displayed_month_range s y m :
  displayed s = Some (y, m) -> 0 <= m <= 11.
Proof.
  intros H. destruct (displayed_inv s y m H) as (t & _ & _ & <-).
  apply MonthFromTime_range.
Qed.

Lemma displayed_setCurrentDate s t :
  displayed (setCurrentDate (Some t) s) = Some (YearFromTime t, MonthFromTime t).
Proof. reflexivity. Qed.









Example february_grids :
  Civil.days_in_month 2024 1 = 29 /\ Civil.weekday 2024 1 1 = 4 /\
  Civil.days_in_month 2023 1 = 28 /\
  getDaysInMonth (new_Date3 (Some 2024) (Some 1) (Some 14)) = Some 29 /\
  getFirstDayOfMonth (new_Date3 (Some 2024) (Some 1) (Some 14)) = Some 4 /\
  getDaysInMonth (new_Date3 (Some 2023) (Some 1) (Some 14)) = Some 28.
Proof. vm_compute. repeat split. Qed.

Lemma month_of_index_inv y m :
  0 <= m <= 11 -> month_of_index (month_index (y, m)) = (y, m).
Proof.
  intros H. unfold month_of_index, month_index. cbn [fst snd].
  f_equal; div_lia.
Qed.

Lemma month_of_index_shift y m k :
  0 <= m <= 11 -> month_of_index (month_index (y, m) + 12 * k) = (y + k, m).
Proof.
  intros H. unfold month_of_index, month_index. cbn [fst snd].
  f_equal; div_lia.
Qed.

Lemma next_month_index i :
  Civil.next_month (month_of_index i) = month_of_index (i + 1).
Proof.
  unfold Civil.next_month, month_of_index.
  destruct (Z.eqb_spec (i mod 12) 11); f_equal; div_lia.
Qed.

Lemma prev_month_index i :
  Civil.prev_month (month_of_index i) = month_of_index (i - 1).
Proof.
  unfold Civil.prev_month, month_of_index.
  destruct (Z.eqb_spec (i mod 12) 0); f_equal; div_lia.
Qed.

Lemma first_day_in_range_between i j k :
  first_day_in_range (month_of_index i) ->
  first_day_in_range (month_of_index k) ->
  i <= j <= k -> first_day_in_range (month_of_index j).
Proof.
  unfold first_day_in_range, month_of_index. cbn [fst snd].
  intros. div_lia.
Qed.

Lemma nextMonth_step s ym :
  displayed s = Some ym -> literal_year (fst ym) ->
  first_day_in_range (Civil.next_month ym) ->
  displayed (nextMonth s) = Some (Civil.next_month ym).
Proof.
  destruct ym as [y m]. cbn [fst]. intros Hd Hy Hr.
  pose proof (displayed_month_range s y m Hd) as Hm.
  unfold displayed in Hd. unfold nextMonth.
  destruct (getFullYear (currentDate s)) as [y0 | ]; [ | discriminate ].
  destruct (getMonth (currentDate s)) as [m0 | ]; [ | discriminate ].
  injection Hd as -> ->. simpl add.
  assert (E : Civil.next_month (y, m) = (y + (m + 1) / 12, (m + 1) mod 12)).
  { unfold Civil.next_month. destruct (Z.eqb_spec m 11); f_equal; div_lia. }
  rewrite E in *.
  destruct (new_Date2_fields y (m + 1) Hy Hr) as (t & -> & HY & HM & _).
  rewrite displayed_setCurrentDate. now rewrite HY, HM.
Qed.

Lemma prevMonth_step s ym :
  displayed s = Some ym -> literal_year (fst ym) ->
  first_day_in_range (Civil.prev_month ym) ->
  displayed (prevMonth s) = Some (Civil.prev_month ym).
Proof.
  destruct ym as [y m]. cbn [fst]. intros Hd Hy Hr.
  pose proof (displayed_month_range s y m Hd) as Hm.
  unfold displayed in Hd. unfold prevMonth.
  destruct (getFullYear (currentDate s)) as [y0 | ]; [ | discriminate ].
  destruct (getMonth (currentDate s)) as [m0 | ]; [ | discriminate ].
  injection Hd as -> ->. simpl sub.
  assert (E : Civil.prev_month (y, m) = (y + (m - 1) / 12, (m - 1) mod 12)).
  { unfold Civil.prev_month. destruct (Z.eqb_spec m 0); f_equal; div_lia. }
  rewrite E in *.
  destruct (new_Date2_fields y (m - 1) Hy Hr) as (t & -> & HY & HM & _).
  rewrite displayed_setCurrentDate. now rewrite HY, HM.
Qed.

(** In a year from 0 to 99 the buttons leave for the twentieth century. *)
Lemma nextMonth_in_two_digit_year s y m :
  displayed s = Some (y, m) -> 0 <= y <= 99 ->
  displayed (nextMonth s) = Some (Civil.next_month (1900 + y, m)).
Proof.
  intros Hd Hy. pose proof (displayed_month_range s y m Hd) as Hm.
  unfold displayed in Hd. unfold nextMonth.
  destruct (getFullYear (currentDate s)) as [y0 | ]; [ | discriminate ].
  destruct (getMonth (currentDate s)) as [m0 | ]; [ | discriminate ].
  injection Hd as -> ->. simpl add.
  assert (E : Civil.next_month (1900 + y, m)
              = (1900 + y + (m + 1) / 12, (m + 1) mod 12)).
  { unfold Civil.next_month. destruct (Z.eqb_spec m 11); f_equal; div_lia. }
  assert (F : MakeFullYear y = 1900 + y).
  { unfold MakeFullYear.
    destruct (Z.leb_spec 0 y), (Z.leb_spec y 99); simpl; lia. }
  destruct (new_Date2_general y (m + 1)) as (t & -> & HY & HM & _).
  { rewrite F. unfold first_day_in_range. cbn [fst snd]. div_lia. }
  rewrite displayed_setCurrentDate, HY, HM, F. now rewrite E.
Qed.

Lemma nextMonth_iter k : forall s i,
  displayed s = Some (month_of_index i) ->
  (forall j, i <= j < i + Z.of_nat k -> literal_year (j / 12)) ->
  (forall j, i < j <= i + Z.of_nat k -> first_day_in_range (month_of_index j)) ->
  displayed (Nat.iter k nextMonth s) = Some (month_of_index (i + Z.of_nat k)).
Proof.
  induction k as [ | k IH ]; intros s i Hd Hl Hr.
  - simpl. now rewrite Z.add_0_r.
  - rewrite Nat.iter_succ.
    replace (i + Z.of_nat (S k)) with ((i + Z.of_nat k) + 1) by lia.
    rewrite <- next_month_index.
    apply nextMonth_step.
    + apply IH; [ assumption | intros; apply Hl; lia | intros; apply Hr; lia ].
    + cbn [month_of_index fst]. apply (Hl (i + Z.of_nat k)). lia.
    + rewrite next_month_index. apply Hr. lia.
Qed.

Lemma prevMonth_iter k : forall s i,
  displayed s = Some (month_of_index i) ->
  (forall j, i - Z.of_nat k < j <= i -> literal_year (j / 12)) ->
  (forall j, i - Z.of_nat k <= j < i -> first_day_in_range (month_of_index j)) ->
  displayed (Nat.iter k prevMonth s) = Some (month_of_index (i - Z.of_nat k)).
Proof.
  induction k as [ | k IH ]; intros s i Hd Hl Hr.
  - simpl. now rewrite Z.sub_0_r.
  - rewrite Nat.iter_succ.
    replace (i - Z.of_nat (S k)) with ((i - Z.of_nat k) - 1) by lia.
    rewrite <- prev_month_index.
    apply prevMonth_step.
    + apply IH; [ assumption | intros; apply Hl; lia | intros; apply Hr; lia ].
    + cbn [month_of_index fst]. apply (Hl (i - Z.of_nat k)). lia.
    + rewrite prev_month_index. apply Hr. lia.
Qed.

(** C3, amended.  From a displayed month whose year is outside 0..99,
    [nextMonth] shows the next month (December wrapping to January of the
    next year) and [prevMonth] the month before (January wrapping to
    December of the prior year), as long as the month reached begins
    inside the range of [Date].  Twelve [nextMonth] then twelve
    [prevMonth], or the reverse, come back to the month and year they
    left, when the years passed are outside 0..99 and in range. *)
Theorem navigation_by_one_month s y m :
  displayed s = Some (y, m) ->
  (literal_year y -> first_day_in_range (Civil.next_month (y, m)) ->
   displayed (nextMonth s) = Some (Civil.next_month (y, m))) /\
  (literal_year y -> first_day_in_range (Civil.prev_month (y, m)) ->
   displayed (prevMonth s) = Some (Civil.prev_month (y, m))) /\
  (literal_year y -> literal_year (y + 1) ->
   first_day_in_range (y, m) -> first_day_in_range (y + 1, m) ->
   displayed (Nat.iter 12 prevMonth (Nat.iter 12 nextMonth s)) = Some (y, m)) /\
  (literal_year (y - 1) -> literal_year y ->
   first_day_in_range (y - 1, m) -> first_day_in_range (y, m) ->
   displayed (Nat.iter 12 nextMonth (Nat.iter 12 prevMonth s)) = Some (y, m)).
Proof.
  intros Hd. pose proof (displayed_month_range s y m Hd) as Hm.
  split; [ | split; [ | split ] ].
  - intros Hy Hr. now apply (nextMonth_step s (y, m)).
  - intros Hy Hr. now apply (prevMonth_step s (y, m)).
  - intros Hy Hy1 Hr Hr1.
    set (i := month_index (y, m)).
    assert (Hi : month_of_index i = (y, m)) by (now apply month_of_index_inv).
    assert (Hi1 : month_of_index (i + 12) = (y + 1, m)).
    { replace (i + 12) with (i + 12 * 1) by lia. now apply month_of_index_shift. }
    assert (Hj : forall j, i <= j <= i + 12 -> literal_year (j / 12)).
    { intros j Hj. unfold i, month_index in Hj. cbn [fst snd] in Hj.
      assert (E : j / 12 = y \/ j / 12 = y + 1) by div_lia.
      destruct E as [-> | ->]; assumption. }
    rewrite <- Hi in Hd, Hr |- *. rewrite <- Hi1 in Hr1.
    assert (Hb : forall j, i <= j <= i + 12 ->
                           first_day_in_range (month_of_index j)).
    { intros j Hb. now apply (first_day_in_range_between i j (i + 12)). }
    assert (E : displayed (Nat.iter 12 nextMonth s) =
                Some (month_of_index (i + Z.of_nat 12))).
    { apply nextMonth_iter; [ exact Hd | | ]; intros j H;
        [ apply Hj | apply Hb ]; lia. }
    pose proof (prevMonth_iter 12 _ (i + Z.of_nat 12) E) as P.
    replace (i + Z.of_nat 12 - Z.of_nat 12) with i in P by lia.
    apply P; intros j H; [ apply Hj | apply Hb ]; lia.
  - intros Hy1 Hy Hr1 Hr.
    set (i := month_index (y, m)).
    assert (Hi : month_of_index i = (y, m)) by (now apply month_of_index_inv).
    assert (Hi1 : month_of_index (i - 12) = (y - 1, m)).
    { replace (i - 12) with (i + 12 * (-1)) by lia.
      unfold i. rewrite month_of_index_shift by assumption. reflexivity. }
    assert (Hj : forall j, i - 12 <= j <= i -> literal_year (j / 12)).
    { intros j Hj. unfold i, month_index in Hj. cbn [fst snd] in Hj.
      assert (E : j / 12 = y \/ j / 12 = y - 1) by div_lia.
      destruct E as [-> | ->]; assumption. }
    rewrite <- Hi in Hd, Hr |- *. rewrite <- Hi1 in Hr1.
    assert (Hb : forall j, i - 12 <= j <= i ->
                           first_day_in_range (month_of_index j)).
    { intros j Hb. now apply (first_day_in_range_between (i - 12) j i). }
    assert (E : displayed (Nat.iter 12 prevMonth s) =
                Some (month_of_index (i - Z.of_nat 12))).
    { apply prevMonth_iter; [ exact Hd | | ]; intros j H;
        [ apply Hj | apply Hb ]; lia. }
    pose proof (nextMonth_iter 12 _ (i - Z.of_nat 12) E) as P.
    replace (i - Z.of_nat 12 + Z.of_nat 12) with i in P by lia.
    apply P; intros j H; [ apply Hj | apply Hb ]; lia.
Qed.

Lemma navigation_by_one_month_witness :
  displayed (nextMonth march_2024) = Some (2024, 3) /\
  displayed (prevMonth march_2024) = Some (2024, 1) /\
  displayed (Nat.iter 12 prevMonth (Nat.iter 12 nextMonth march_2024))
  = Some (2024, 2) /\
  displayed (Nat.iter 12 nextMonth (Nat.iter 12 prevMonth march_2024))
  = Some (2024, 2).
Proof.
  destruct (navigation_by_one_month march_2024 2024 2 eq_refl) as (A & B & C & D).
  assert (L : forall y, 99 < y -> literal_year y) by (intros; right; assumption).
  assert (R : forall y m, 0 <= y <= 3000 -> 0 <= m <= 11 ->
                          first_day_in_range (y, m)).
  { intros. unfold first_day_in_range. cbn [fst snd]. lia. }
  split; [ | split; [ | split ] ].
  - apply A; [ apply L | apply R ]; lia.
  - apply B; [ apply L | apply R ]; lia.
  - apply C; try apply L; try apply R; lia.
  - apply D; try apply L; try apply R; lia.
Defined.

(** December 99 is where the "previous" button leads from a month of
    today's calendar, by 23091 clicks. *)
Example december_99_reached :
  Nat.iter (Z.to_nat 23091) prevMonth march_2024 = december_99.
Proof. vm_compute. reflexivity. Qed.

(** C3 as stated fails in December of the year 99: the month after it is
    January 100, and [nextMonth] shows January 2000. *)
Lemma nextMonth_from_december_99 :
  displayed december_99 = Some (99, 11) /\
  Civil.next_month (99, 11) = (100, 0) /\
  displayed (nextMonth december_99) = Some (2000, 0).
Proof. vm_compute. repeat split. Qed.

(** Past the last month of the range there is no date to show. *)
Example nextMonth_past_the_range :
  let s := setCurrentDate (new_Date2 (Some 275760) (Some 8)) march_2024 in
  displayed s = Some (275760, 8) /\ displayed (nextMonth s) = None.
Proof. vm_compute. repeat split. Qed.

Lemma navigate_frame s a :
  selectedDate (navigate s a) = selectedDate s /\
  allEvents (navigate s a) = allEvents s /\
  loading (navigate s a) = loading s.
Proof. destruct a; repeat split. Qed.

(** C9.  Whatever the sequence of [prevMonth] and [nextMonth] clicks, the
    selected date, the events and the loading flag are what they were:
    navigation writes the displayed month only. *)
Theorem navigation_keeps_selection (actions : list Nav) (s : State) :
  selectedDate (fold_left navigate actions s) = selectedDate s /\
  allEvents (fold_left navigate actions s) = allEvents s /\
  loading (fold_left navigate actions s) = loading s.
Proof.
  revert s. induction actions as [ | a l IH ]; intros s; simpl.
  - repeat split.
  - destruct (IH (navigate s a)) as (A & B & C).
    destruct (navigate_frame s a) as (A' & B' & C').
    repeat split; congruence.
Qed.

Lemma strict_eq_true a b :
  strict_eq a b = true <-> exists z, a = Some z /\ b = Some z.
Proof.
  unfold strict_eq. destruct a as [x | ], b as [y | ]; split;
    try discriminate; try (intros (z & H1 & H2); discriminate).
  - intros H. apply Z.eqb_eq in H. subst. now exists y.
  - intros (z & H1 & H2). injection H1 as ->. injection H2 as ->.
    apply Z.eqb_refl.
Qed.

(** C8.  With [today] the current date, [isToday] holds of a day exactly
    when the displayed year and month are today's and the day is today's
    day of the month, whichever month is displayed; and the [today] mark
    of every day cell of the grid is [isToday] of its day. *)
Theorem today_cell_iff_current_date s today day :
  today <> NaN ->
  (isToday s today day = true <->
   getFullYear (currentDate s) = getFullYear today /\
   getMonth (currentDate s) = getMonth today /\
   Some day = getDate today) /\
  (forall td sel, In (DayCell day td sel) (renderCalendar s today) ->
                  td = isToday s today day).
Proof.
  intros Hv. split.
  - destruct today as [t | ]; [ clear Hv | now elim Hv ].
    unfold isToday. rewrite !andb_true_iff, !strict_eq_true.
    unfold getFullYear, getMonth, getDate, option_map.
    destruct (currentDate s) as [c | ]; split.
    + intros (((z1 & E1 & E1') & (z2 & E2 & E2')) & (z3 & E3 & E3')).
      repeat split; congruence.
    + intros (E1 & E2 & E3).
      repeat split; eexists; split; try reflexivity; congruence.
    + intros ((_ & (z2 & E2 & _)) & _). discriminate.
    + intros (E1 & _). discriminate.
  - intros td sel Hin. unfold renderCalendar in Hin.
    apply in_app_or in Hin. destruct Hin as [Hin | Hin];
      apply in_map_iff in Hin; destruct Hin as (x & E & _).
    + discriminate.
    + now injection E as -> <- _.
Qed.

Lemma today_cell_iff_current_date_witness :
  isToday march_2024 march_5 5 = true.
Proof.
  apply (today_cell_iff_current_date march_2024 march_5 5).
  - vm_compute. discriminate.
  - vm_compute. repeat split.
Defined.

Example today_only_in_its_month :
  isToday (nextMonth march_2024) march_5 5 = false /\
  isToday march_2024 march_5 6 = false.
Proof. vm_compute. split; reflexivity. Qed.

End GridFacts.

(** ** The events of the selected day *)

Module EventFacts.
Import JSNumber JSDate JSString StringFacts Api Eff.
Import Calendar CalendarSpec Host Examples.
Local Open Scope string_scope.

Lemma truthy_populated v : truthy v = true <-> populated v.
Proof.
  unfold truthy, populated. destruct v as [s | ].
  - destruct (String.eqb_spec s ""); simpl; split.
    + discriminate.
    + intros (s' & E & N). injection E as <-. contradiction.
    + intros _. now exists s.
    + reflexivity.
  - split; [ discriminate | intros (s & E & _); discriminate ].
Qed.

Lemma dateYMD_nonempty d : dateYMD d <> "".
Proof.
  unfold dateYMD. destruct (Number_toString (getFullYear d)); discriminate.
Qed.

(** Comparing the date strings of two dates is comparing their days. *)
Lemma toDateString_same_day a t :
  toDateString a = toDateString (Some t) <-> same_local_day a (Some t).
Proof.
  unfold same_local_day. destruct a as [ta | ]; simpl; split.
  - intros H. apply DateString_fields in H. exists ta, t. tauto.
  - intros (ta' & tb & Ea & Eb & HY & HM & HD).
    injection Ea as <-. injection Eb as <-. now apply DateString_of_fields.
  - intros H. symmetry in H. now apply DateString_not_invalid in H.
  - intros (ta & tb & Ea & _). discriminate.
Qed.

Lemma filter_Filtered {A} (f : A -> bool) (P : A -> Prop) :
  (forall x, f x = true <-> P x) ->
  forall l, Filtered P l (filter f l).
Proof.
  intros H. induction l as [ | x l IH ]; simpl; [ constructor | ].
  destruct (f x) eqn:E.
  - apply Filtered_keep; [ now apply H | exact IH ].
  - apply Filtered_drop; [ | exact IH ].
    intros Px. apply H in Px. congruence.
Qed.

(** [Filtered] has one result, and it holds the elements it should. *)
Lemma Filtered_unique {A} (P : A -> Prop) l r r' :
  Filtered P l r -> Filtered P l r' -> r = r'.
Proof.
  intros H. revert r'. induction H; intros r' H'; inversion H'; subst;
    try reflexivity; try contradiction.
  - f_equal. now apply IHFiltered.
  - now apply IHFiltered.
Qed.

Lemma Filtered_In {A} (P : A -> Prop) l r :
  Filtered P l r -> forall x, In x r <-> In x l /\ P x.
Proof.
  induction 1 as [ | x l r Px F IH | x l r Px F IH ]; intros y; simpl.
  - tauto.
  - rewrite IH. split.
    + intros [<- | [I Py]]; tauto.
    + intros [[<- | I] Py]; tauto.
  - rewrite IH. split.
    + tauto.
    + intros [[<- | I] Py]; [ contradiction | tauto ].
Qed.

Section Filter.
Variable Date_parse : string -> Date.

Lemma event_matches_iff t e :
  event_matches Date_parse (Some t) e = true <->
  matches_all_day_first Date_parse (Some t) e.
Proof.
  unfold event_matches, matches_all_day_first, all_day_on_selected,
    timed_on_selected.
  destruct (truthy (start_date e)) eqn:Td.
  - apply truthy_populated in Td. destruct Td as (d & Ed & Nd).
    rewrite Ed. rewrite String.eqb_eq. split.
    + intros ->. now left.
    + intros [E | [N _]]; [ congruence | ].
      elim N. now exists d.
  - assert (Np : ~ populated (start_date e)).
    { intros P. apply truthy_populated in P. congruence. }
    destruct (truthy (start_dateTime e)) eqn:Tt.
    + apply truthy_populated in Tt. destruct Tt as (dt & Et & Nt).
      rewrite Et. rewrite String.eqb_eq, toDateString_same_day. split.
      * intros S. right. split; [ exact Np | ]. now exists dt.
      * intros [E | [_ (dt' & E' & _ & S)]].
        -- elim Np. exists (dateYMD (Some t)). split; [ exact E | ].
           apply dateYMD_nonempty.
        -- congruence.
    + split; [ discriminate | ].
      intros [E | [_ (dt & Et & Nt & _)]].
      * elim Np. exists (dateYMD (Some t)). split; [ exact E | ].
        apply dateYMD_nonempty.
      * assert (P : populated (start_dateTime e)) by (now exists dt).
        apply truthy_populated in P. congruence.
Qed.

(** C1, amended.  For a selected date that is a valid [Date], the list
    of [getEventsForDate] is the subsequence of the fetched events, in
    fetch order, that match: the event's [start.date] is the key of the
    selected date, or its [start.date] is not populated and it has a
    populated [start.dateTime] whose local calendar day is the selected
    one.  An event with neither field populated is never in the list. *)
Theorem events_of_the_selected_day s sel :
  sel <> NaN ->
  Filtered (matches_all_day_first Date_parse sel) (allEvents s)
           (getEventsForDate Date_parse s (Some sel)) /\
  (forall e, In e (getEventsForDate Date_parse s (Some sel)) ->
             populated (start_date e) \/ populated (start_dateTime e)).
Proof.
  intros Hv. destruct sel as [t | ]; [ clear Hv | now elim Hv ].
  split.
  - apply filter_Filtered. intros e. apply event_matches_iff.
  - intros e Hin. apply filter_In in Hin. destruct Hin as [_ M].
    unfold event_matches in M.
    destruct (truthy (start_date e)) eqn:Td;
      [ left; now apply truthy_populated | ].
    destruct (truthy (start_dateTime e)) eqn:Tt;
      [ right; now apply truthy_populated | discriminate ].
Qed.

(** C10.  For an event whose [start.date] is populated next to a
    [start.dateTime], the filter compares [start.date] with the key of
    the selected date and nothing else: the answer is the same for every
    value of [start.dateTime] and every way of parsing it. *)
Theorem both_fields_decided_by_all_day sel e d dt :
  start e = Some (mkStart (Some d) (Some dt)) -> d <> "" ->
  event_matches Date_parse sel e = (d =? dateYMD sel) /\
  forall parse' dt',
    event_matches parse' sel
      (mkEvent (id e) (summary e) (Some (mkStart (Some d) (Some dt')))
               (location e))
    = event_matches Date_parse sel e.
Proof.
  intros Hs Hd.
  assert (T : truthy (Some d) = true).
  { apply truthy_populated. now exists d. }
  unfold event_matches, start_date. rewrite Hs. cbn [Api.date start].
  rewrite T. split; reflexivity.
Qed.

End Filter.

Example two_of_four_match :
  getEventsForDate parse_iso_local (with_events fetched) (Some march_5)
  = [all_day_event; timed_event].
Proof. vm_compute. reflexivity. Qed.

Lemma events_of_the_selected_day_witness :
  Filtered (matches_all_day_first parse_iso_local march_5)
           (allEvents (with_events fetched))
           (getEventsForDate parse_iso_local (with_events fetched) (Some march_5)).
Proof.
  apply (events_of_the_selected_day parse_iso_local (with_events fetched) march_5).
  vm_compute. discriminate.
Defined.

(** C1 as stated fails on an event with an all-day date on the 6th and a
    time on the 5th: by rule (b) it belongs to the 5th, and the list of
    the 5th leaves it out. *)
Lemma either_rule_fails_on_both_fields :
  ~ Filtered (matches_either parse_iso_local march_5)
             (allEvents (with_events [both_fields_event]))
             (getEventsForDate parse_iso_local (with_events [both_fields_event])
                               (Some march_5)).
Proof.
  intros F.
  assert (M : matches_either parse_iso_local march_5 both_fields_event).
  { right. exists "2024-03-05T10:00:00". split; [ reflexivity | ].
    split; [ discriminate | ].
    eexists. eexists. split; [ vm_compute; reflexivity | ].
    split; [ vm_compute; reflexivity | ]. vm_compute. repeat split. }
  pose proof (proj2 (Filtered_In _ _ _ F both_fields_event)) as I.
  assert (E : getEventsForDate parse_iso_local (with_events [both_fields_event])
                (Some march_5) = []) by (vm_compute; reflexivity).
  rewrite E in I. apply I. split; [ now left | exact M ].
Qed.

Lemma both_fields_decided_by_all_day_witness :
  event_matches parse_iso_local march_5 both_fields_event
  = ("2024-03-06" =? dateYMD march_5).
Proof.
  apply (both_fields_decided_by_all_day parse_iso_local march_5 both_fields_event
           "2024-03-06" "2024-03-05T10:00:00").
  - reflexivity.
  - discriminate.
Defined.

Section Render.
Variable Date_parse : string -> Date.
Variable toLocaleTimeString : Date -> string.

Lemma or_else_populated v fallback :
  (forall t, v = Some t -> t <> "" -> or_else v fallback = t) /\
  (~ populated v -> or_else v fallback = fallback).
Proof.
  unfold or_else. destruct (truthy v) eqn:T.
  - apply truthy_populated in T. destruct T as (t & -> & N). split.
    + intros t' E _. now injection E as <-.
    + intros P. elim P. now exists t.
  - split.
    + intros t E N. assert (P : populated v) by (now exists t).
      apply truthy_populated in P. congruence.
    + reflexivity.
Qed.

(** C4, amended.  The card of an event of the selected day shows the
    event's title, or "(No title)" when the title is absent or empty; it
    shows the local start time exactly when [start.dateTime] is
    populated and the "All day" line exactly when [start.date] is
    populated; at least one of the two lines is there, and both only for
    an event with both fields populated. *)
Theorem event_card_contract s e index :
  In e (selectedDateEvents Date_parse s) ->
  let c := render_event Date_parse toLocaleTimeString e index in
  (forall t, summary e = Some t -> t <> "" -> card_title c = t) /\
  (~ populated (summary e) -> card_title c = "(No title)") /\
  (card_time c <> None <-> populated (start_dateTime e)) /\
  (forall dt, start_dateTime e = Some dt -> dt <> "" ->
              card_time c = Some (toLocaleTimeString (Date_parse dt))) /\
  (card_all_day c <> None <-> populated (start_date e)) /\
  (card_all_day c = None \/ card_all_day c = Some "All day") /\
  (card_time c <> None \/ card_all_day c <> None) /\
  (~ (populated (start_date e) /\ populated (start_dateTime e)) ->
   ~ (card_time c <> None /\ card_all_day c <> None)).
Proof.
  intros Hin c.
  assert (Ht : card_time c <> None <-> populated (start_dateTime e)).
  { unfold c, render_event. cbn [card_time].
    destruct (truthy (start_dateTime e)) eqn:T.
    - pose proof (proj1 (truthy_populated _) T) as P.
      destruct P as (dt & E & N). rewrite E. split; [ | discriminate ].
      intros _. now exists dt.
    - split; [ intros H; now elim H | ].
      intros P. apply truthy_populated in P. congruence. }
  assert (Ha : card_all_day c <> None <-> populated (start_date e)).
  { unfold c, render_event. cbn [card_all_day].
    destruct (truthy (start_date e)) eqn:T.
    - split; [ intros _; now apply truthy_populated | discriminate ].
    - split; [ intros H; now elim H | ].
      intros P. apply truthy_populated in P. congruence. }
  destruct (or_else_populated (summary e) "(No title)") as [T1 T2].
  split; [ exact T1 | split; [ exact T2 | split; [ exact Ht | ] ] ].
  split; [ | split; [ exact Ha | split; [ | split ] ] ].
  - intros dt E N. unfold c, render_event. cbn [card_time].
    assert (P : populated (start_dateTime e)) by (now exists dt).
    apply truthy_populated in P. now rewrite P, E.
  - unfold c, render_event. cbn [card_all_day].
    destruct (truthy (start_date e)); [ now right | now left ].
  - unfold selectedDateEvents in Hin.
    destruct (selectedDate s) as [sel | ]; [ | now elim Hin ].
    simpl in Hin. apply filter_In in Hin. destruct Hin as [_ M].
    unfold event_matches in M.
    destruct (truthy (start_date e)) eqn:Td.
    + right. apply Ha. now apply truthy_populated.
    + destruct (truthy (start_dateTime e)) eqn:Tt; [ | discriminate ].
      left. apply Ht. now apply truthy_populated.
  - intros N [A B]. apply N. split; [ now apply Ha | now apply Ht ].
Qed.

(** The event list is the cards of the events of the selected day, in
    their order. *)
Lemma render_events_cards s cards :
  render_events Date_parse toLocaleTimeString s = EventList cards ->
  cards = map_index (render_event Date_parse toLocaleTimeString)
                    (selectedDateEvents Date_parse s) 0.
Proof.
  unfold render_events. destruct (loading s); [ discriminate | ].
  destruct (0 <? List.length (selectedDateEvents Date_parse s))%nat;
    [ | discriminate ].
  intros H. now injection H as <-.
Qed.

End Render.

Lemma event_card_contract_witness :
  card_title (render_event parse_iso_local time_HH_MM timed_event 1)
  = "(No title)".
Proof.
  apply (event_card_contract parse_iso_local time_HH_MM (with_events fetched)
           timed_event 1).
  - vm_compute. right. left. reflexivity.
  - intros (t & E & _). discriminate.
Defined.

(** C4 as stated fails on an event of the selected day with both fields
    populated: its card has the time line and the "All day" line. *)
Lemma both_lines_for_both_fields :
  In all_day_with_time_event
     (selectedDateEvents parse_iso_local (with_events [all_day_with_time_event])) /\
  card_time (render_event parse_iso_local time_HH_MM all_day_with_time_event 0)
  = Some "10:00" /\
  card_all_day (render_event parse_iso_local time_HH_MM all_day_with_time_event 0)
  = Some "All day".
Proof. vm_compute. split; [ now left | split; reflexivity ]. Qed.

(** C5.  When the request for the events fails, [fetchEvents] completes
    normally with [allEvents = []] and [loading = false]; the error goes
    to the console and nowhere else, the other state is untouched, and
    the panel shows the text of a day without events. *)
Theorem failed_fetch_gives_empty_list api (w : World State) error :
  api events_request = inr error ->
  fetchEvents api w =
    (Normal tt,
     mkWorld (mkState (currentDate (component w)) (selectedDate (component w))
                      [] false)
             (console w ++ [ConsoleError "Failed to fetch calendar events:" error])
             (sent w ++ [events_request])) /\
  forall Date_parse toLocaleTimeString,
    render_events Date_parse toLocaleTimeString
                  (component (snd (fetchEvents api w))) = NoEventsText.
Proof.
  intros H.
  assert (E : fetchEvents api w =
    (Normal tt,
     mkWorld (mkState (currentDate (component w)) (selectedDate (component w))
                      [] false)
             (console w ++ [ConsoleError "Failed to fetch calendar events:" error])
             (sent w ++ [events_request]))).
  { unfold fetchEvents, call, bind, try_catch_finally, try_finally, try_catch,
      api_get, request, set, console_error.
    cbn [component console sent]. fold events_request. rewrite H. reflexivity. }
  split; [ exact E | ].
  intros P F. rewrite E. cbn [snd component]. unfold render_events.
  cbn [loading]. unfold selectedDateEvents, getEventsForDate.
  cbn [selectedDate allEvents].
  destruct (selectedDate (component w)); reflexivity.
Qed.

Lemma failed_fetch_gives_empty_list_witness :
  component (snd (fetchEvents backend_down (fresh (with_events [all_day_event]))))
  = with_events [].
Proof.
  destruct (failed_fetch_gives_empty_list backend_down
              (fresh (with_events [all_day_event])) network_error eq_refl)
    as [E _].
  rewrite E. reflexivity.
Defined.

(** A fetch that succeeds replaces the list, and a body without data is
    an empty list. *)
Lemma successful_fetch api (w : World State) response :
  api events_request = inl response ->
  fetchEvents api w =
    (Normal tt,
     mkWorld (mkState (currentDate (component w)) (selectedDate (component w))
                      (events_of response) false)
             (console w) (sent w ++ [events_request])).
Proof.
  intros H.
  unfold fetchEvents, call, bind, try_catch_finally, try_finally, try_catch,
    api_get, request, set, console_error.
  cbn [component console sent]. fold events_request. rewrite H. reflexivity.
Qed.

End EventFacts.

(** ** The authentication shell *)

Module AuthFacts.
Import JSString Api Eff App Examples.
Local Open Scope string_scope.
Local Open Scope list_scope.

Ltac run_handler :=
  unfold checkAuthStatus, handleLogout, logout_finally, call, bind,
    try_catch_finally, try_finally, try_catch, api_get, api_post, request,
    set, console_error, console_log, ret, return_;
  cbn [component console sent].

(** C6.  When the status endpoint reports an authenticated session and
    the profile request then fails, [checkAuthStatus] ends anonymous
    ([isAuthenticated = false], empty email, no longer checking) with
    the [detail] of the profile failure as the error, or "Unable to load
    user profile" when the failure carries none. *)
Theorem profile_failure_surfaces_its_own_error api (w : World State)
    statusRes userErr :
  api status_request = inl statusRes ->
  authenticated_of statusRes = true ->
  api profile_request = inr userErr ->
  fst (checkAuthStatus api w) = Normal tt /\
  component (snd (checkAuthStatus api w)) =
    mkState false "" false
            (nullish (response_detail userErr) "Unable to load user profile") /\
  (response_detail userErr = None ->
   authError (component (snd (checkAuthStatus api w)))
   = "Unable to load user profile") /\
  (forall d, response_detail userErr = Some d ->
             authError (component (snd (checkAuthStatus api w))) = d) /\
  console (snd (checkAuthStatus api w)) = console w ++
    [ConsoleLog "Auth status response:" (data statusRes);
     ConsoleError "Fetching user profile failed:" userErr] /\
  sent (snd (checkAuthStatus api w)) =
    sent w ++ [status_request; profile_request].
Proof.
  intros Hs Ha Hp.
  assert (E : checkAuthStatus api w =
    (Normal tt,
     mkWorld (mkState false "" false
                (nullish (response_detail userErr) "Unable to load user profile"))
             (console w ++
                [ConsoleLog "Auth status response:" (data statusRes);
                 ConsoleError "Fetching user profile failed:" userErr])
             (sent w ++ [status_request; profile_request]))).
  { run_handler. fold status_request. rewrite Hs.
    cbn [component console sent]. rewrite Ha.
    cbn [component console sent]. fold profile_request. rewrite Hp.
    cbn [component console sent]. rewrite <- !app_assoc. reflexivity. }
  rewrite E. cbn [fst snd component console sent authError].
  repeat split.
  - intros ->. reflexivity.
  - intros d ->. reflexivity.
Qed.

Lemma profile_failure_surfaces_its_own_error_witness :
  component (snd (checkAuthStatus
                    (profile_fails (detailed_error "Profile unavailable"))
                    (fresh signed_in)))
  = mkState false "" false "Profile unavailable".
Proof.
  destruct (profile_failure_surfaces_its_own_error
              (profile_fails (detailed_error "Profile unavailable"))
              (fresh signed_in)
              (mkResponse (Some (StatusPayload (Some true))))
              (detailed_error "Profile unavailable")
              eq_refl eq_refl eq_refl) as (_ & E & _).
  exact E.
Defined.

(** A failure of the status request itself carries the other fallback. *)
Lemma status_failure_fallback api (w : World State) error :
  api status_request = inr error ->
  component (snd (checkAuthStatus api w)) =
    mkState false "" false
            (nullish (response_detail error) "Authentication check failed").
Proof.
  intros H. run_handler. fold status_request. rewrite H. reflexivity.
Qed.

(** [checkAuthStatus] handles every failure itself. *)
Lemma checkAuthStatus_completes api (w : World State) :
  fst (checkAuthStatus api w) = Normal tt.
Proof.
  run_handler. destruct (api _) as [r | e]; cbn [component console sent].
  - destruct (authenticated_of r); [ | reflexivity ].
    destruct (api _) as [r' | e']; reflexivity.
  - reflexivity.
Qed.



(** What the re-check then finds is the backend's word.  With the
    backend down, the state stays anonymous; a session that outlives a
    failed logout call is picked up again. *)
Example logout_with_backend_down :
  component (snd (handleLogout backend_down (fresh signed_in)))
  = mkState false "" false "Authentication check failed".
Proof. vm_compute. reflexivity. Qed.

Example logout_failed_session_alive :
  component (snd (handleLogout logout_fails_session_alive (fresh signed_in)))
  = mkState true "ada@example.org" false "".
Proof. vm_compute. reflexivity. Qed.

End AuthFacts.

(** ** Selection *)

Module SelectionFacts.
Import JSNumber JSDate JSString DateFacts GridFacts.
Import Calendar CalendarSpec CalendarView Examples.


(** X1.  With a selected date that is a valid [Date], [isSelected] holds
    of a day exactly when the displayed year and month are those of the
    selected date and the day is its day of the month; and the
    [selected] mark of every day cell of the grid is [isSelected] of its
    day. *)
Theorem selected_cell_iff_selected_date s sel day :
  selectedDate s = Some sel -> sel <> NaN ->
  (isSelected s day = true <->
   getFullYear (currentDate s) = getFullYear sel /\
   getMonth (currentDate s) = getMonth sel /\
   Some day = getDate sel) /\
  (forall today td sl, In (DayCell day td sl) (renderCalendar s today) ->
                       sl = isSelected s day).
Proof.
  intros Hs Hv. split.
  - destruct sel as [t | ]; [ clear Hv | now elim Hv ].
    unfold isSelected. rewrite Hs.
    rewrite !andb_true_iff, !strict_eq_true.
    unfold getFullYear, getMonth, getDate, option_map.
    destruct (currentDate s) as [c | ]; split.
    + intros (((z1 & E1 & E1') & (z2 & E2 & E2')) & (z3 & E3 & E3')).
      repeat split; congruence.
    + intros (E1 & E2 & E3).
      repeat split; eexists; split; try reflexivity; congruence.
    + intros ((_ & (z2 & E2 & _)) & _). discriminate.
    + intros (E1 & _). discriminate.
  - intros today td sl Hin. unfold renderCalendar in Hin.
    apply in_app_or in Hin. destruct Hin as [Hin | Hin];
      apply in_map_iff in Hin; destruct Hin as (x & E & _).
    + discriminate.
    + now injection E as -> _ <-.
Qed.









Lemma selected_cell_iff_selected_date_witness :
  isSelected march_2024 5 = true.
Proof.
  apply (selected_cell_iff_selected_date march_2024 march_5 5).
  - reflexivity.
  - vm_compute. discriminate.
  - vm_compute. repeat split.
Defined.

End SelectionFacts.

(** ** Layout of the grid *)

Module LayoutFacts.
Import JSNumber JSDate JSString DateFacts GridFacts.
Import Calendar CalendarSpec CalendarView Examples.










Lemma filter_map_cells {A} (f : A -> Cell) (p : Cell -> bool) l :
  filter p (map f l) = map f (filter (fun a => p (f a)) l).
Proof.
  induction l as [ | a l IH ]; simpl; [ reflexivity | ].
  destruct (p (f a)); simpl; now rewrite IH.
Qed.

Lemma filter_none {A} (p : A -> bool) l :
  (forall a, p a = false) -> filter p l = [].
Proof.
  intros H. induction l as [ | a l IH ]; simpl; [ reflexivity | ].
  now rewrite H.
Qed.


(** In any other month no cell carries it. *)
Theorem no_today_cell_in_other_months s today :
  today <> NaN ->
  displayed s <> displayed (setCurrentDate today s) ->
  filter marked_today (renderCalendar s today) = [].
Proof.
  intros Hv Hne. unfold renderCalendar.
  rewrite filter_app, !filter_map_cells. cbn [marked_today].
  rewrite filter_none by reflexivity. cbn [app].
  rewrite filter_none; [ reflexivity | ].
  intros day. destruct today as [t | ]; [ | now elim Hv ].
  unfold isToday. unfold displayed in Hne. cbn [currentDate setCurrentDate] in Hne.
  unfold getFullYear, getMonth, getDate, option_map in *.
  destruct (currentDate s) as [c | ]; simpl; [ | now rewrite andb_false_r ].
  destruct (Z.eqb_spec (MonthFromTime c) (MonthFromTime t)) as [Em | Nm];
    [ | now rewrite andb_false_r ].
  destruct (Z.eqb_spec (YearFromTime c) (YearFromTime t)) as [Ey | Ny];
    [ | now rewrite andb_false_r ].
  elim Hne. now rewrite Em, Ey.
Qed.




End LayoutFacts.

(** ** The key of a day *)

Module KeyFacts.
Import JSNumber JSDate JSString DateFacts StringFacts GridFacts EventFacts.
Import Api Calendar CalendarSpec CalendarView Host Examples.
Local Open Scope string_scope.

Lemma Number_toString_inj a b :
  Number_toString (Some a) = Number_toString (Some b) -> a = b.
Proof.
  unfold Number_toString. intros H.
  assert (R : forall z, NilZero.int_of_string (NilZero.string_of_int (Z.to_int z))
                        = Some (Z.to_int z)).
  { intros z. apply NilZero.isi.
    - destruct z as [ | p | p ]; try discriminate.
      simpl. intros E. injection E as E.
      pose proof (DecimalPos.Unsigned.of_to p) as F. rewrite E in F. discriminate.
    - destruct z as [ | p | p ]; try discriminate.
      simpl. intros E. injection E as E.
      pose proof (DecimalPos.Unsigned.of_to p) as F. rewrite E in F. discriminate. }
  apply (f_equal NilZero.int_of_string) in H. rewrite !R in H.
  injection H as H. apply (f_equal Z.of_int) in H.
  now rewrite !DecimalZ.of_to in H.
Qed.

(** A number that is not negative prints as its digits. *)
Lemma Number_toString_nonneg n :
  (0 <= n)%Z ->
  Number_toString (Some n) = NilZero.string_of_uint (N.to_uint (Z.to_N n)).
Proof. destruct n as [ | p | p ]; intros H; [ reflexivity | reflexivity | lia ]. Qed.

Lemma padStart_toString n k :
  (0 <= n)%Z ->
  padStart (Number_toString (Some n)) k "0" = ToZeroPaddedDecimalString n k.
Proof.
  intros H. unfold ToZeroPaddedDecimalString. now rewrite Number_toString_nonneg.
Qed.

Lemma length_append (a b : string) :
  String.length (a ++ b) = (String.length a + String.length b)%nat.
Proof. induction a as [ | c a IH ]; simpl; [ | rewrite IH ]; reflexivity. Qed.

Lemma append_inj_length_r (a a' b b' : string) :
  String.length b = String.length b' -> a ++ b = a' ++ b' -> a = a' /\ b = b'.
Proof.
  intros L H. apply append_inj_length; [ | exact H ].
  apply (f_equal String.length) in H.
  rewrite !length_append in H. lia.
Qed.

(** The key of a valid date, field by field. *)
Lemma dateYMD_fields t :
  dateYMD (Some t) =
  Number_toString (Some (YearFromTime t)) ++ "-" ++
  ToZeroPaddedDecimalString (MonthFromTime t + 1) 2 ++ "-" ++
  ToZeroPaddedDecimalString (DateFromTime t) 2.
Proof.
  unfold dateYMD, getFullYear, getMonth, getDate, option_map, add.
  pose proof (MonthFromTime_range t). pose proof (DateFromTime_range t).
  now rewrite !padStart_toString by lia.
Qed.

Lemma dateYMD_inj a b :
  dateYMD (Some a) = dateYMD (Some b) -> same_local_day (Some a) (Some b).
Proof.
  rewrite !dateYMD_fields. intros H.
  pose proof (MonthFromTime_range a). pose proof (MonthFromTime_range b).
  pose proof (DateFromTime_range a). pose proof (DateFromTime_range b).
  apply append_inj_length_r in H.
  2:{ cbn [String.length]. rewrite !length_append. cbn [String.length].
      rewrite !two_digits_length by lia. reflexivity. }
  destruct H as [HY H]. injection H as H.
  apply append_inj_length in H; [ | rewrite !two_digits_length; lia ].
  destruct H as [HM H]. injection H as HD.
  apply Number_toString_inj in HY.
  apply ToZeroPaddedDecimalString_inj in HM; [ | lia | lia ].
  apply ToZeroPaddedDecimalString_inj in HD; [ | lia | lia ].
  exists a, b. repeat split; try assumption. lia.
Qed.

Lemma same_local_day_trans a b c :
  same_local_day a b -> same_local_day c b -> same_local_day a c.
Proof.
  intros (ta & tb & -> & -> & Y & M & D) (tc & tb' & -> & E & Y' & M' & D').
  injection E as <-. exists ta, tc. repeat split; congruence.
Qed.

(** X8.  An event that [getEventsForDate] lists for two valid dates is
    listed for one day: the two dates are the same local calendar day
    and have the same key. *)
Theorem event_on_one_day_only (Date_parse : string -> Date) d1 d2 e :
  d1 <> NaN -> d2 <> NaN ->
  event_matches Date_parse d1 e = true ->
  event_matches Date_parse d2 e = true ->
  same_local_day d1 d2 /\ dateYMD d1 = dateYMD d2.
Proof.
  intros V1 V2 M1 M2.
  destruct d1 as [t1 | ]; [ | now elim V1 ].
  destruct d2 as [t2 | ]; [ | now elim V2 ].
  assert (S : same_local_day (Some t1) (Some t2)).
  { unfold event_matches in M1, M2.
    destruct (truthy (start_date e)).
    - destruct (start_date e) as [d | ]; [ | discriminate ].
      apply String.eqb_eq in M1, M2. apply dateYMD_inj. congruence.
    - destruct (truthy (start_dateTime e)); [ | discriminate ].
      destruct (start_dateTime e) as [dt | ]; [ | discriminate ].
      apply String.eqb_eq in M1, M2.
      apply toDateString_same_day in M1, M2.
      destruct M1 as (p & q & Ep & Eq & Y & M & D).
      destruct M2 as (p' & q' & Ep' & Eq' & Y' & M' & D').
      injection Eq as <-. injection Eq' as <-.
      rewrite Ep in Ep'. injection Ep' as <-.
      exists t1, t2. repeat split; congruence. }
  split; [ exact S | ].
  destruct S as (a & b & Ea & Eb & Y & M & D).
  injection Ea as <-. injection Eb as <-.
  rewrite !dateYMD_fields. now rewrite Y, M, D.
Qed.

Lemma event_on_one_day_only_witness :
  same_local_day march_5 (parse_iso_local "2024-03-05T18:00:00").
Proof.
  apply (event_on_one_day_only parse_iso_local march_5
           (parse_iso_local "2024-03-05T18:00:00") timed_event).
  - vm_compute. discriminate.
  - vm_compute. discriminate.
  - vm_compute. reflexivity.
  - vm_compute. reflexivity.
Defined.

Lemma four_digit_years_spec y :
  (1000 <= y <= 9999)%Z -> In y four_digit_years.
Proof.
  intros H. unfold four_digit_years. apply in_map_iff.
  exists (Z.to_nat (y - 1000)). split; [ lia | ].
  apply in_seq. lia.
Qed.

Lemma four_digit_year_string y :
  (1000 <= y <= 9999)%Z ->
  Number_toString (Some y) = ToZeroPaddedDecimalString y 4.
Proof.
  intros H. apply four_digit_years_spec in H. apply String.eqb_eq.
  revert y H. apply forallb_forall. vm_compute. reflexivity.
Qed.

(** X9.  For a selected date in the years 1000 to 9999 the key of
    [getEventsForDate] is the ten-character calendar date "YYYY-MM-DD"
    of the selected day, so an event with a populated [start.date] is
    listed exactly when that field is the calendar date of the selected
    day. *)
Theorem key_is_the_iso_date (Date_parse : string -> Date) t e d :
  (1000 <= YearFromTime t <= 9999)%Z ->
  start_date e = Some d -> d <> "" ->
  dateYMD (Some t) = iso_date (YearFromTime t) (MonthFromTime t) (DateFromTime t) /\
  String.length (dateYMD (Some t)) = 10%nat /\
  (event_matches Date_parse (Some t) e = true <->
   d = iso_date (YearFromTime t) (MonthFromTime t) (DateFromTime t)).
Proof.
  intros Hy Hs Hd.
  assert (K : dateYMD (Some t)
              = iso_date (YearFromTime t) (MonthFromTime t) (DateFromTime t)).
  { rewrite dateYMD_fields. unfold iso_date. now rewrite four_digit_year_string. }
  split; [ exact K | split ].
  - rewrite dateYMD_fields.
    pose proof (MonthFromTime_range t). pose proof (DateFromTime_range t).
    rewrite !length_append. cbn [String.length].
    rewrite !two_digits_length by lia.
    assert (L : String.length (Number_toString (Some (YearFromTime t))) = 4%nat).
    { apply four_digit_years_spec in Hy. apply Nat.eqb_eq. revert Hy.
      generalize (YearFromTime t). apply forallb_forall.
      vm_compute. reflexivity. }
    rewrite L. reflexivity.
  - rewrite <- K. unfold event_matches.
    assert (T : truthy (start_date e) = true).
    { apply truthy_populated. exists d. now split. }
    rewrite T, Hs. apply String.eqb_eq.
Qed.

Lemma key_is_the_iso_date_witness :
  event_matches parse_iso_local march_5 all_day_event = true.
Proof.
  apply (key_is_the_iso_date parse_iso_local 1709596800000 all_day_event "2024-03-05").
  - vm_compute. split; discriminate.
  - reflexivity.
  - discriminate.
  - vm_compute. reflexivity.
Defined.

(** Before the year 1000 the key has fewer than four digits of year. *)
Example key_of_the_year_999 :
  dateYMD (new_Date3 (Some 999) (Some 0) (Some 1)) = "999-01-01".
Proof. vm_compute. reflexivity. Qed.

End KeyFacts.

(** ** The events panel, the header and the fetch *)

Module PanelFacts.
Import JSNumber JSDate JSString DateFacts StringFacts GridFacts EventFacts.
Import Api Eff Calendar CalendarSpec CalendarView Host Examples.
Local Open Scope string_scope.

Lemma map_index_length {A B} (f : A -> nat -> B) l :
  forall i, List.length (map_index f l i) = List.length l.
Proof.
  induction l as [ | x l IH ]; intros i; simpl; [ | rewrite IH ]; reflexivity.
Qed.

Lemma map_index_nth {A B} (f : A -> nat -> B) l :
  forall i k, nth_error (map_index f l i) k
              = option_map (fun x => f x (i + k)%nat) (nth_error l k).
Proof.
  induction l as [ | x l IH ]; intros i k.
  - now destruct k.
  - destruct k as [ | k ]; simpl.
    + now rewrite Nat.add_0_r.
    + rewrite IH. now rewrite Nat.add_succ_r.
Qed.

Section Panel.
Variable Date_parse : string -> Date.
Variable toLocaleTimeString : Date -> string.

(** X10.  While loading, the panel shows the loading text whatever the
    events are.  Otherwise it shows the no-events text exactly when no
    fetched event matches the selected date, and else one card for each
    matching event, in their order, the [k]-th card rendered from the
    [k]-th event with index [k]. *)
Theorem events_panel_cases s :
  (loading s = true ->
   render_events Date_parse toLocaleTimeString s = LoadingText) /\
  (loading s = false ->
   (render_events Date_parse toLocaleTimeString s = NoEventsText <->
    selectedDateEvents Date_parse s = []) /\
   (forall cards,
      render_events Date_parse toLocaleTimeString s = EventList cards ->
      List.length cards = List.length (selectedDateEvents Date_parse s) /\
      forall k, nth_error cards k
                = option_map
                    (fun e => render_event Date_parse toLocaleTimeString e k)
                    (nth_error (selectedDateEvents Date_parse s) k))).
Proof.
  unfold render_events. split.
  - intros ->. reflexivity.
  - intros ->. destruct (selectedDateEvents Date_parse s) as [ | e l ] eqn:E.
    + simpl. split; [ tauto | discriminate ].
    + change (0 <? List.length (e :: l))%nat with true. cbv iota. split.
      * split; discriminate.
      * intros cards H. injection H as <-. split.
        -- exact (map_index_length _ (e :: l) 0%nat).
        -- intros k. exact (map_index_nth _ (e :: l) 0%nat k).
Qed.

End Panel.

Lemma events_panel_cases_witness :
  render_events parse_iso_local time_HH_MM (with_events fetched) <> NoEventsText.
Proof.
  destruct (events_panel_cases parse_iso_local time_HH_MM (with_events fetched))
    as [_ H].
  destruct (H eq_refl) as [I _]. intros N. apply I in N.
  vm_compute in N. discriminate.
Defined.

Section Title.
Variable toLocaleDateString : Date -> string.

(** X11.  With [today] the current date, the title of the panel is
    "Today's" when no date is selected or the selected date falls on
    today's local day, and the locale's rendering of the selected date
    followed by "'s" on any other day; on mount it is "Today's". *)
Theorem panel_title_says_today s today :
  today <> NaN ->
  (selectedDate s = None ->
   formatEventDate toLocaleDateString s today = "Today's") /\
  (forall sel, selectedDate s = Some sel -> same_local_day sel today ->
               formatEventDate toLocaleDateString s today = "Today's") /\
  (forall sel, selectedDate s = Some sel -> ~ same_local_day sel today ->
               formatEventDate toLocaleDateString s today
               = toLocaleDateString sel ++ "'s") /\
  formatEventDate toLocaleDateString (initial today) today = "Today's".
Proof.
  intros Hv. destruct today as [t | ]; [ clear Hv | now elim Hv ].
  unfold formatEventDate. repeat split.
  - intros ->. reflexivity.
  - intros sel -> S. apply toDateString_same_day in S.
    apply String.eqb_eq in S. now rewrite S.
  - intros sel -> N.
    destruct (String.eqb_spec (toDateString sel) (toDateString (Some t))) as [E | _];
      [ | reflexivity ].
    apply toDateString_same_day in E. contradiction.
  - cbn [initial selectedDate]. now rewrite String.eqb_refl.
Qed.

End Title.

Lemma panel_title_says_today_witness :
  formatEventDate (fun _ => "Mar 12") (handleDateClick march_2024 12) march_5
  = "Mar 12's".
Proof.
  destruct (panel_title_says_today (fun _ => "Mar 12")
              (handleDateClick march_2024 12) march_5) as (_ & _ & H & _).
  - vm_compute. discriminate.
  - apply (H march_12).
    + vm_compute. reflexivity.
    + intros (a & b & Ea & Eb & _ & _ & D).
      vm_compute in Ea, Eb. injection Ea as <-. injection Eb as <-.
      vm_compute in D. discriminate.
Defined.

(** X7.  For a valid displayed date the header reads a name of
    [monthNames], never [undefined], followed by the year; the name is
    the one of the displayed month, its first three letters being the
    month of [toDateString]. *)
Theorem header_names_the_month s y m :
  displayed s = Some (y, m) ->
  exists name,
    nth_error monthNames (Z.to_nat m) = Some name /\
    header s = name ++ " " ++ Number_toString (Some y) /\
    substring 0 3 name = monthName m.
Proof.
  intros Hd. pose proof (displayed_month_range s y m Hd) as Hm.
  unfold header, displayed in *.
  destruct (getFullYear (currentDate s)) as [y0 | ]; [ | discriminate ].
  destruct (getMonth (currentDate s)) as [m0 | ]; [ | discriminate ].
  injection Hd as -> ->. unfold monthNames_at.
  destruct (Z.ltb_spec m 0); [ lia | ].
  month_cases m; eexists; (split; [ reflexivity | split; reflexivity ]).
Qed.

Lemma header_names_the_month_witness :
  exists name,
    nth_error monthNames (Z.to_nat 2) = Some name /\
    header march_2024 = name ++ " " ++ Number_toString (Some 2024) /\
    substring 0 3 name = monthName 2.
Proof. apply (header_names_the_month march_2024 2024 2). reflexivity. Defined.

Example header_of_march_2024 : header march_2024 = "March 2024".
Proof. vm_compute. reflexivity. Qed.


End PanelFacts.

(** ** The listeners of the mount effect *)

Module SubscriptionFacts.
Import JSNumber JSDate JSString EventFacts.
Import Api Eff Calendar CalendarView Examples.
Local Open Scope string_scope.
Local Open Scope list_scope.

Lemma listener_eqb_true a b : listener_eqb a b = true <-> a = b.
Proof.
  unfold listener_eqb. rewrite andb_true_iff, String.eqb_eq, Nat.eqb_eq.
  destruct a, b; simpl. split.
  - intros [-> ->]. reflexivity.
  - intros E. injection E as -> ->. now split.
Qed.

Lemma existsb_foreign h win type :
  foreign h win -> existsb (listener_eqb (mkListener type h)) win = false.
Proof.
  intros F. apply not_true_is_false. intros E.
  apply existsb_exists in E. destruct E as (l & I & E).
  apply listener_eqb_true in E. subst l. now apply (F _ I).
Qed.

Lemma removeEventListener_foreign h win type :
  foreign h win -> removeEventListener win type h = win.
Proof.
  induction win as [ | l win IH ]; intros F; simpl; [ reflexivity | ].
  destruct (listener_eqb (mkListener type h) l) eqn:E.
  - apply listener_eqb_true in E. subst l. elim (F _ (or_introl eq_refl)).
    reflexivity.
  - f_equal. apply IH. intros l' I. apply F. now right.
Qed.

Lemma removeEventListener_last h win type :
  foreign h win ->
  removeEventListener (win ++ [mkListener type h]) type h = win.
Proof.
  induction win as [ | l win IH ]; intros F; simpl.
  - assert (E : listener_eqb (mkListener type h) (mkListener type h) = true)
      by (now apply listener_eqb_true).
    now rewrite E.
  - destruct (listener_eqb (mkListener type h) l) eqn:E.
    + apply listener_eqb_true in E. subst l. elim (F _ (or_introl eq_refl)).
      reflexivity.
    + f_equal. apply IH. intros l' I. apply F. now right.
Qed.

Lemma removeEventListener_middle h win type type' :
  foreign h win -> type <> type' ->
  removeEventListener (win ++ [mkListener type h; mkListener type' h]) type h
  = win ++ [mkListener type' h].
Proof.
  induction win as [ | l win IH ]; intros F N; simpl.
  - assert (E : listener_eqb (mkListener type h) (mkListener type h) = true)
      by (now apply listener_eqb_true).
    now rewrite E.
  - destruct (listener_eqb (mkListener type h) l) eqn:E.
    + apply listener_eqb_true in E. subst l. elim (F _ (or_introl eq_refl)).
      reflexivity.
    + f_equal. apply IH; [ | exact N ]. intros l' I. apply F. now right.
Qed.

Lemma mounted_listeners api h win w :
  foreign h win ->
  fst (effect_mount api h (win, w))
  = (win ++ [mkListener "kanban-event-added" h;
             mkListener "kanban-event-deleted" h])%list.
Proof.
  intros F. unfold effect_mount, addEventListener. cbn [fst snd].
  rewrite (existsb_foreign h win _ F).
  rewrite existsb_app, (existsb_foreign h win _ F).
  cbn [existsb orb]. unfold listener_eqb. cbn [event_type callback].
  change ("kanban-event-deleted" =? "kanban-event-added") with false.
  cbn [andb orb]. now rewrite <- app_assoc.
Qed.

(** X13.  The cleanup of the mount effect removes the two listeners the
    effect added and nothing else: the listeners of [window] are those
    from before the mount, and no signal reaches [fetchEvents] any more. *)
Theorem unmount_removes_the_listeners api h win w :
  foreign h win ->
  fst (effect_cleanup h (effect_mount api h (win, w))) = win /\
  forall api' type,
    dispatchEvent api' type h (effect_cleanup h (effect_mount api h (win, w)))
    = effect_cleanup h (effect_mount api h (win, w)).
Proof.
  intros F.
  assert (E : fst (effect_cleanup h (effect_mount api h (win, w))) = win).
  { unfold effect_cleanup. cbn [fst]. rewrite (mounted_listeners api h win w F).
    rewrite removeEventListener_middle by (assumption || discriminate).
    now apply removeEventListener_last. }
  split; [ exact E | ].
  intros api' type. unfold dispatchEvent. rewrite E.
  now rewrite (existsb_foreign h win type F).
Qed.

Lemma unmount_removes_the_listeners_witness :
  fst (effect_cleanup 1 (effect_mount backend_down 1
                           ([other_listener], fresh march_2024)))
  = [other_listener].
Proof.
  apply (unmount_removes_the_listeners backend_down 1 [other_listener]
           (fresh march_2024)).
  intros l [<- | []]. discriminate.
Defined.

(** X14.  While the component is mounted, a [kanban-event-added] or
    [kanban-event-deleted] signal runs [fetchEvents] once, and a signal
    of any other name does nothing. *)
Theorem signals_refetch_while_mounted api h win w type :
  foreign h win ->
  let p := effect_mount api h (win, w) in
  (type = "kanban-event-added" \/ type = "kanban-event-deleted" ->
   forall api',
     dispatchEvent api' type h p = (fst p, snd (fetchEvents api' (snd p)))) /\
  (type <> "kanban-event-added" -> type <> "kanban-event-deleted" ->
   forall api', dispatchEvent api' type h p = p).
Proof.
  intros F p.
  assert (L : fst p = (win ++ [mkListener "kanban-event-added" h;
                               mkListener "kanban-event-deleted" h])%list)
    by (now apply mounted_listeners).
  split.
  - intros T api'. unfold dispatchEvent. rewrite L, existsb_app.
    rewrite (existsb_foreign h win type F).
    cbn [existsb orb]. unfold listener_eqb. cbn [event_type callback].
    rewrite Nat.eqb_refl.
    destruct T as [-> | ->].
    + now rewrite String.eqb_refl.
    + rewrite String.eqb_refl. cbn [andb]. now rewrite orb_true_r.
  - intros N1 N2 api'. unfold dispatchEvent. rewrite L, existsb_app.
    rewrite (existsb_foreign h win type F).
    cbn [existsb orb]. unfold listener_eqb. cbn [event_type callback].
    apply String.eqb_neq in N1, N2. rewrite N1, N2. reflexivity.
Qed.

Lemma signals_refetch_while_mounted_witness :
  sent (snd (dispatchEvent backend_down "kanban-event-deleted" 1
               (effect_mount backend_down 1 ([other_listener], fresh march_2024))))
  = [events_request; events_request].
Proof.
  destruct (signals_refetch_while_mounted backend_down 1 [other_listener]
              (fresh march_2024) "kanban-event-deleted") as [H _].
  - intros l [<- | []]. discriminate.
  - exact (f_equal (fun q : Page => sent (snd q))
                   (H (or_intror eq_refl) backend_down)).
Defined.

End SubscriptionFacts.

(** ** The session *)

Module SessionFacts.
Import JSString Api Eff App AppView Examples AuthFacts.
Local Open Scope string_scope.
Local Open Scope list_scope.

Lemma checkAuthStatus_outcome api (w : World State) :
  component (snd (checkAuthStatus api w)) = check_outcome api.
Proof.
  unfold check_outcome. run_handler. fold status_request. fold profile_request.
  destruct (api status_request) as [r | e]; cbn [component console sent];
    [ | reflexivity ].
  destruct (authenticated_of r); [ | reflexivity ].
  destruct (api profile_request) as [u | e]; reflexivity.
Qed.

(** X15.  The state [checkAuthStatus] ends in depends on the replies of
    the backend alone, not on the state it starts from; the handler
    completes normally with [isCheckingAuth = false], with an empty
    email whenever it ends anonymous and with no error whenever it ends
    authenticated. *)
Theorem check_rederives_the_state api (w1 w2 : World State) :
  component (snd (checkAuthStatus api w1))
  = component (snd (checkAuthStatus api w2)) /\
  fst (checkAuthStatus api w1) = Normal tt /\
  isCheckingAuth (component (snd (checkAuthStatus api w1))) = false /\
  (isAuthenticated (component (snd (checkAuthStatus api w1))) = false ->
   userEmail (component (snd (checkAuthStatus api w1))) = "") /\
  (isAuthenticated (component (snd (checkAuthStatus api w1))) = true ->
   authError (component (snd (checkAuthStatus api w1))) = "").
Proof.
  rewrite !checkAuthStatus_outcome.
  split; [ reflexivity | split; [ apply checkAuthStatus_completes | ] ].
  unfold check_outcome.
  destruct (api status_request) as [r | e]; [ | repeat split; discriminate ].
  destruct (authenticated_of r); [ | repeat split; discriminate ].
  destruct (api profile_request) as [u | e]; repeat split; discriminate.
Qed.

(** X16.  [checkAuthStatus] ends authenticated exactly when the status
    endpoint reports an authenticated session and the profile request
    succeeds, and the email is then the profile's (empty when it has
    none); when the status endpoint fails or reports no session, the
    profile is not requested. *)
Theorem authenticated_needs_both_replies api (w : World State) :
  (isAuthenticated (component (snd (checkAuthStatus api w))) = true <->
   exists statusRes userRes,
     api status_request = inl statusRes /\
     authenticated_of statusRes = true /\
     api profile_request = inl userRes) /\
  (forall statusRes userRes,
     api status_request = inl statusRes ->
     authenticated_of statusRes = true ->
     api profile_request = inl userRes ->
     userEmail (component (snd (checkAuthStatus api w))) = email_of userRes) /\
  ((forall statusRes, api status_request = inl statusRes ->
                      authenticated_of statusRes = false) ->
   sent (snd (checkAuthStatus api w)) = sent w ++ [status_request]).
Proof.
  split; [ | split ].
  - rewrite checkAuthStatus_outcome. unfold check_outcome. split.
    + destruct (api status_request) as [r | e]; [ | discriminate ].
      destruct (authenticated_of r) eqn:A; [ | discriminate ].
      destruct (api profile_request) as [u | e]; [ | discriminate ].
      intros _. now exists r, u.
    + intros (r & u & -> & -> & ->). reflexivity.
  - intros r u Hs Ha Hp. rewrite checkAuthStatus_outcome. unfold check_outcome.
    now rewrite Hs, Ha, Hp.
  - intros H. run_handler. fold status_request.
    destruct (api status_request) as [r | e]; cbn [component console sent];
      [ | reflexivity ].
    now rewrite (H r eq_refl).
Qed.

Lemma authenticated_needs_both_replies_witness :
  sent (snd (checkAuthStatus backend_down (fresh signed_in))) = [status_request].
Proof.
  apply (authenticated_needs_both_replies backend_down (fresh signed_in)).
  intros r H. discriminate.
Defined.

Lemma handleLogout_as_recheck api (w : World State) :
  handleLogout api w = checkAuthStatus api (after_logout_call api w).
Proof.
  pose proof (checkAuthStatus_completes api (after_logout_call api w)) as C.
  unfold after_logout_call in *.
  unfold handleLogout, logout_finally, call at 1, try_catch_finally,
    try_finally, try_catch, bind at 1 2 3, api_post, request, ret.
  cbn [component console sent]. fold logout_request.
  destruct (api logout_request) as [r | e].
  - unfold bind, set. cbn [component console sent].
    destruct (checkAuthStatus api _) as [c w1]. simpl in C. now subst c.
  - unfold bind, set, console_error. cbn [component console sent].
    destruct (checkAuthStatus api _) as [c w1]. simpl in C. now subst c.
Qed.

Lemma checkAuthStatus_console_grows api (w : World State) :
  exists more, console (snd (checkAuthStatus api w)) = console w ++ more.
Proof.
  run_handler.
  destruct (api _) as [r | e]; cbn [component console sent].
  - destruct (authenticated_of r).
    + destruct (api _) as [u | e]; cbn [snd console];
        rewrite <- ?app_assoc; eexists; reflexivity.
    + eexists; reflexivity.
  - eexists; reflexivity.
Qed.

(** X17.  The state [handleLogout] ends in is the state a plain
    [checkAuthStatus] ends in: the "Logout failed" message stored by the
    catch block is cleared by the status check that follows, and a
    failed logout call leaves its trace on the console only. *)
Theorem logout_ends_as_a_status_check api (w : World State) :
  component (snd (handleLogout api w)) = component (snd (checkAuthStatus api w)) /\
  forall error,
    api logout_request = inr error ->
    exists more,
      console (snd (handleLogout api w)) =
      console w ++ ConsoleError "Logout failed:" error :: more.
Proof.
  rewrite handleLogout_as_recheck. split.
  - now rewrite !checkAuthStatus_outcome.
  - intros error H.
    destruct (checkAuthStatus_console_grows api (after_logout_call api w))
      as (more & E).
    exists more. rewrite E. unfold after_logout_call. rewrite H.
    cbn [console]. now rewrite <- app_assoc.
Qed.

Lemma logout_ends_as_a_status_check_witness :
  exists more,
    console (snd (handleLogout backend_down (fresh signed_in))) =
    [] ++ ConsoleError "Logout failed:" network_error :: more.
Proof.
  apply (logout_ends_as_a_status_check backend_down (fresh signed_in)).
  reflexivity.
Defined.

(** X18.  After [checkAuthStatus] the session area never shows
    "Checking session..."; it shows the login button exactly when the
    state is anonymous; an authenticated session shows the email, or
    "Authenticated user" for an empty one, and no error; an error
    message is shown only next to the login button and is never empty. *)
Theorem session_view_after_check api (w : World State) :
  let s := component (snd (checkAuthStatus api w)) in
  fst (render_session s) <> CheckingText /\
  (fst (render_session s) = LoginButton <-> isAuthenticated s = false) /\
  (isAuthenticated s = true ->
   snd (render_session s) = None /\
   fst (render_session s)
   = LoggedIn (if userEmail s =? "" then "Authenticated user" else userEmail s)) /\
  (forall message, snd (render_session s) = Some message ->
                   fst (render_session s) = LoginButton /\
                   message = authError s /\ message <> "").
Proof.
  intros s. unfold s. rewrite checkAuthStatus_outcome.
  assert (L : forall e, or_else (Some e) "Authenticated user"
                        = if e =? "" then "Authenticated user" else e).
  { intros e. unfold or_else, truthy. now destruct (e =? ""). }
  unfold check_outcome.
  destruct (api status_request) as [r | e].
  - destruct (authenticated_of r).
    + destruct (api profile_request) as [u | e]; unfold render_session;
        cbn [isCheckingAuth isAuthenticated authError userEmail fst snd].
      * rewrite L. repeat split; try discriminate.
      * destruct (String.eqb_spec (nullish (response_detail e)
                                      "Unable to load user profile") "");
          cbn [negb andb fst snd]; repeat split; try discriminate; try congruence.
    + unfold render_session.
      cbn [isCheckingAuth isAuthenticated authError userEmail fst snd negb andb].
      repeat split; try discriminate.
  - unfold render_session.
    cbn [isCheckingAuth isAuthenticated authError userEmail fst snd].
    destruct (String.eqb_spec (nullish (response_detail e)
                                  "Authentication check failed") "");
      cbn [negb andb fst snd]; repeat split; try discriminate; try congruence.
Qed.

Lemma check_rederives_the_state_witness :
  userEmail (component (snd (checkAuthStatus backend_down (fresh signed_in)))) = "".
Proof.
  apply (check_rederives_the_state backend_down (fresh signed_in) (fresh signed_in)).
  reflexivity.
Defined.

Lemma session_view_after_check_witness :
  snd (render_session
         (component (snd (checkAuthStatus logout_fails_session_alive
                                          (fresh initial))))) = None.
Proof.
  apply (session_view_after_check logout_fails_session_alive (fresh initial)).
  reflexivity.
Defined.

End SessionFacts.
